(** * Metal Rolls Warehouse API: a shallow embedding of the service

    The development follows the layout of the repository:
    - [config.py]   (module [Config])   : the database settings loader;
    - [models.py]                       : the [Roll] entity;
    - [schemas.py]                      : the request shape [RollCreate];
    - [database.py]                     : the session dependency [get_db];
    - [routers/rolls.py]                : the four handlers.

    Modelling conventions.
    - A [datetime] is an absolute instant, counted in microseconds since the
      Unix epoch (the resolution of Python's [datetime] and of PostgreSQL's
      [timestamptz]); a [date] is a day number since the epoch.
    - Python [float] columns are modelled by exact rationals [Q]: the
      handlers only compare, add and average them.  IEEE special values
      (NaN, infinities) are outside the model.
    - The database is a list of rows in storage order together with the
      value of the [SERIAL] sequence behind [rolls.id].
    - [day_start d] is the instant at which the calendar day [d] begins in
      the time zone of the database session (what PostgreSQL obtains when a
      [date] is read as a [timestamptz]).
    - Every database round trip may fail: the world carries a list of
      fault flags, one consumed per round trip ([true] = the driver raises
      an [SQLAlchemyError]); an exhausted list means no more faults.
    - Every session or database call is appended to a trace, so that
      "nothing was attempted" is a statement about the trace. *)

From Stdlib Require Import ZArith QArith Qround Qminmax Lqa Ascii String.
From stdpp Require Import base list sorting strings gmap pretty.

Local Open Scope Z_scope.

(** ** Basic data *)

Definition datetime := Z.
Definition date := Z.

Definition MICROSECOND_PER_SECOND : Z := 1000000.
Definition MICROSECOND_PER_DAY : Z := 86400 * MICROSECOND_PER_SECOND.

(** [dt.replace(microsecond=0)] *)
Definition replace_microsecond_0 (t : datetime) : datetime :=
  t - t mod MICROSECOND_PER_SECOND.

(** [dt.astimezone(timezone.utc).date()] *)
Definition utc_date (t : datetime) : date := t / MICROSECOND_PER_DAY.

(** ** config.py

    [ConfigParser] after [config.read("config.ini")]: the sections of the
    file with their options, and the options of [[DEFAULT]].  A file that
    does not exist is skipped silently and leaves the parser empty.  Option
    names are stored lower-cased ([optionxform]); values are taken as read
    (values with an interpolation mark are outside the model). *)

Module Config.

Record ConfigParser := mkConfigParser {
  defaults : gmap string string;
  sections : gmap string (gmap string string)
}.

Inductive Error :=
| NoSectionError (section : string)
| NoOptionError (option section : string).

Definition lower_ascii (c : ascii) : ascii :=
  let n := N_of_ascii c in
  if ((65 <=? n) && (n <=? 90))%N then ascii_of_N (n + 32) else c.

Fixpoint lower (s : string) : string :=
  match s with
  | EmptyString => EmptyString
  | String c s' => String (lower_ascii c) (lower s')
  end.

Definition optionxform (option : string) : string := lower option.

(** [config.read(filename)] *)
Definition read (file : option ConfigParser) : ConfigParser :=
  match file with
  | Some parsed => parsed
  | None => mkConfigParser ∅ ∅
  end.

(** [config.get(section, option)] *)
Definition get (config : ConfigParser) (section option : string) : Error + string :=
  match sections config !! section with
  | None => inl (NoSectionError section)
  | Some options =>
      match options !! optionxform option with
      | Some v => inr v
      | None =>
          match defaults config !! optionxform option with
          | Some v => inr v
          | None => inl (NoOptionError option section)
          end
      end
  end.

(** [os.getenv(key, default)] *)
Definition getenv (environ : gmap string string) (key default : string) : string :=
  match environ !! key with
  | Some v => v
  | None => default
  end.

Record DbConfig := mkDbConfig {
  host : string;
  database : string;
  username : string;
  password : string
}.

(** One entry of the dictionary: Python evaluates the arguments of
    [os.getenv] first, the call to [config.get] among them. *)
Definition entry (environ : gmap string string) (config : ConfigParser)
    (key : string) : Error + string :=
  match get config "database" key with
  | inl err => inl err
  | inr default => inr (getenv environ key default)
  end.

Definition get_db_config (environ : gmap string string)
    (file : option ConfigParser) : Error + DbConfig :=
  let config := read file in
  match entry environ config "DB_HOST" with
  | inl err => inl err
  | inr host =>
  match entry environ config "DB_NAME" with
  | inl err => inl err
  | inr database =>
  match entry environ config "DB_USER" with
  | inl err => inl err
  | inr username =>
  match entry environ config "DB_PASSWORD" with
  | inl err => inl err
  | inr password => inr (mkDbConfig host database username password)
  end end end end.

Definition keys : list string := ["DB_HOST"; "DB_NAME"; "DB_USER"; "DB_PASSWORD"].

(** The field of the result that belongs to a key. *)
Definition field (key : string) (c : DbConfig) : string :=
  if String.eqb key "DB_HOST" then host c
  else if String.eqb key "DB_NAME" then database c
  else if String.eqb key "DB_USER" then username c
  else password c.

(** An environment that sets the four variables, and a file that sets the
    four options. *)
Definition full_environ : gmap string string :=
  <["DB_HOST" := "db"]> (<["DB_NAME" := "rolls"]>
    (<["DB_USER" := "postgres"]> (<["DB_PASSWORD" := "secret"]> ∅))).

Definition full_file : ConfigParser :=
  mkConfigParser ∅
    (<["database" :=
        <["db_host" := "localhost"]> (<["db_name" := "warehouse"]>
          (<["db_user" := "user"]> (<["db_password" := "pw"]> ∅)))]> ∅).

End Config.

(** ** models.py *)

Record Roll := mkRoll {
  id : Z;
  length : Q;
  weight : Q;
  added_date : datetime;
  removed_date : option datetime
}.

(** ** schemas.py *)

Record RollCreate := mkRollCreate {
  rc_length : Q;
  rc_weight : Q
}.

(** ** Exceptions and the handler monad *)

Inductive exn :=
| HTTPException (status_code : Z) (detail : string)
| SQLAlchemyError (msg : string).

(** [str(e)]: Starlette prints an [HTTPException] as ["<status>: <detail>"]. *)
Definition exn_str (e : exn) : string :=
  match e with
  | HTTPException s d => pretty s +:+ ": " +:+ d
  | SQLAlchemyError m => m
  end.

(** The status the framework answers with when a handler raises [e]. *)
Definition response_status (e : exn) : Z :=
  match e with
  | HTTPException s _ => s
  | SQLAlchemyError _ => 500
  end.

Inductive DbAction :=
| ActAdd
| ActSetRemoved (roll_id : Z)
| ActCommit
| ActRefresh (roll_id : Z)
| ActRollback
| ActGet (roll_id : Z)
| ActQuery
| ActExecute.

(** What the unit of work holds until the next flush. *)
Inductive Pending :=
| PendingInsert (r : RollCreate)
| PendingUpdate (roll_id : Z) (removed : datetime).

Record World := mkWorld {
  rolls : list Roll;
  rolls_id_seq : Z;
  session : list Pending;
  clock : datetime;
  day_start : date -> datetime;
  faults : list bool;
  trace : list DbAction
}.

Definition set_rolls (rs : list Roll) (w : World) : World :=
  mkWorld rs (rolls_id_seq w) (session w) (clock w) (day_start w) (faults w) (trace w).
Definition set_seq (n : Z) (w : World) : World :=
  mkWorld (rolls w) n (session w) (clock w) (day_start w) (faults w) (trace w).
Definition set_session (s : list Pending) (w : World) : World :=
  mkWorld (rolls w) (rolls_id_seq w) s (clock w) (day_start w) (faults w) (trace w).
Definition set_faults (f : list bool) (w : World) : World :=
  mkWorld (rolls w) (rolls_id_seq w) (session w) (clock w) (day_start w) f (trace w).
Definition log (a : DbAction) (w : World) : World :=
  mkWorld (rolls w) (rolls_id_seq w) (session w) (clock w) (day_start w) (faults w)
          (trace w ++ [a]).

Inductive Result (A : Type) :=
| Ok (a : A)
| Raise (e : exn).
Arguments Ok {A} a.
Arguments Raise {A} e.

Definition M (A : Type) : Type := World -> Result A * World.

Definition ret {A} (a : A) : M A := fun w => (Ok a, w).
Definition raise {A} (e : exn) : M A := fun w => (Raise e, w).
Definition bind {A B} (m : M A) (k : A -> M B) : M B :=
  fun w => match m w with
           | (Ok a, w') => k a w'
           | (Raise e, w') => (Raise e, w')
           end.

Declare Scope handler_scope.
Delimit Scope handler_scope with handler.
Notation "x <- m ;; k" := (bind m (fun x => k))
  (at level 100, m at next level, right associativity) : handler_scope.
Notation "m ;; k" := (bind m (fun _ => k))
  (at level 100, right associativity) : handler_scope.
Local Open Scope handler_scope.

(** [try: body except Exception as e: handler e] *)
Definition try_except {A} (body : M A) (handler : exn -> M A) : M A :=
  fun w => match body w with
           | (Ok a, w') => (Ok a, w')
           | (Raise e, w') => handler e w'
           end.

(** [datetime.now(timezone.utc).replace(microsecond=0)], which is also
    [models.get_utc_time]. *)
Definition get_utc_time : M datetime :=
  fun w => (Ok (replace_microsecond_0 (clock w)), w).

(** ** The database session *)

(** One round trip to the server: logged, and failing when the next fault
    flag says so. *)
Definition roundtrip (a : DbAction) : M unit :=
  fun w =>
    let w' := log a w in
    match faults w' with
    | true :: fs => (Raise (SQLAlchemyError "OperationalError"), set_faults fs w')
    | false :: fs => (Ok tt, set_faults fs w')
    | [] => (Ok tt, w')
    end.

(** [db.query(models.Roll).get(roll_id)] at the level of the table. *)
Definition find_roll (roll_id : Z) (rs : list Roll) : option Roll :=
  List.find (fun r => id r =? roll_id) rs.

(** [UPDATE rolls SET removed_date = t WHERE id = roll_id]. *)
Definition update_removed (roll_id : Z) (t : datetime) (rs : list Roll) : list Roll :=
  map (fun r => if id r =? roll_id
                then mkRoll (id r) (length r) (weight r) (added_date r) (Some t)
                else r) rs.

(** The flush of one pending change inside the open transaction.  The
    sequence advances even when the [INSERT] is refused, as PostgreSQL
    sequences do; [added_date] takes the column default [get_utc_time]. *)
Definition flush_one (now : datetime) (p : Pending)
    (st : list Roll * Z * list Z) : option (list Roll * Z * list Z) :=
  let '(rs, sq, ids) := st in
  match p with
  | PendingInsert r =>
      match find_roll sq rs with
      | Some _ => None
      | None =>
          Some (rs ++ [mkRoll sq (rc_length r) (rc_weight r) now None],
                sq + 1, ids ++ [sq])
      end
  | PendingUpdate i t => Some (update_removed i t rs, sq, ids)
  end.

Fixpoint flush (now : datetime) (ps : list Pending)
    (st : list Roll * Z * list Z) : list Roll * Z * list Z + Z :=
  match ps with
  | [] => inl st
  | p :: ps' =>
      match flush_one now p st with
      | Some st' => flush now ps' st'
      | None => inr (st.1.2 + 1)
      end
  end.

(** [db.add(obj)]: the object joins the unit of work; no SQL is sent. *)
Definition db_add (r : RollCreate) : M unit :=
  fun w => (Ok tt, set_session (session w ++ [PendingInsert r]) (log ActAdd w)).

(** [db_roll.removed_date = t] on a persistent object: it becomes dirty. *)
Definition set_removed_date (roll_id : Z) (t : datetime) : M unit :=
  fun w => (Ok tt, set_session (session w ++ [PendingUpdate roll_id t])
                               (log (ActSetRemoved roll_id) w)).

(** [db.commit()]: flush the unit of work and commit.  The result lists
    the primary keys given to the new objects.  A refused statement aborts
    the transaction: the table is left as it was. *)
Definition db_commit : M (list Z) :=
  roundtrip ActCommit ;;
  now <- get_utc_time ;;
  fun w =>
    match flush now (session w) (rolls w, rolls_id_seq w, []) with
    | inl (rs, sq, ids) => (Ok ids, set_session [] (set_seq sq (set_rolls rs w)))
    | inr sq => (Raise (SQLAlchemyError "IntegrityError"), set_seq sq w)
    end.

(** [db.rollback()] *)
Definition db_rollback : M unit :=
  roundtrip ActRollback ;;
  fun w => (Ok tt, set_session [] w).

(** [db.refresh(obj)]: reload the row of the object's primary key. *)
Definition db_refresh (roll_id : Z) : M Roll :=
  roundtrip (ActRefresh roll_id) ;;
  fun w =>
    match find_roll roll_id (rolls w) with
    | Some r => (Ok r, w)
    | None => (Raise (SQLAlchemyError "InvalidRequestError"), w)
    end.

(** [db.query(models.Roll).get(roll_id)] *)
Definition db_get (roll_id : Z) : M (option Roll) :=
  roundtrip (ActGet roll_id) ;;
  fun w => (Ok (find_roll roll_id (rolls w)), w).

(** ** database.py: [get_db] gives every request a session of its own and
    closes it afterwards, whatever the outcome. *)
Definition get_db {A} (handler : M A) : M A :=
  fun w => let '(r, w') := handler (set_session [] w) in (r, set_session [] w').

(** ** routers/rolls.py *)

(** The two [except] clauses shared by [create_roll] and [delete_roll]. *)
Definition except_with_rollback {A} (e : exn) : M A :=
  match e with
  | SQLAlchemyError m =>
      db_rollback ;;
      raise (HTTPException 500 ("Database error: " +:+ m))
  | e => raise (HTTPException 500 ("Unexpected error: " +:+ exn_str e))
  end.

(** The two [except] clauses of [get_rolls] and [get_statistics]. *)
Definition except_plain {A} (e : exn) : M A :=
  match e with
  | SQLAlchemyError m => raise (HTTPException 500 ("Database error: " +:+ m))
  | e => raise (HTTPException 500 ("Unexpected error: " +:+ exn_str e))
  end.

(** [POST /rolls/].  After the commit the new object carries the primary
    key it was given, which is what [db.refresh] reloads; the unit of work
    holds that one object, so the list of keys is never empty. *)
Definition create_roll (roll : RollCreate) : M Roll :=
  try_except
    (if Qle_bool (rc_length roll) 0 || Qle_bool (rc_weight roll) 0
     then raise (HTTPException 400 "Length and weight must be positive")
     else
       db_add roll ;;
       ids <- db_commit ;;
       match ids with
       | i :: _ => db_refresh i
       | [] => raise (SQLAlchemyError "InvalidRequestError")
       end)
    except_with_rollback.

(** [DELETE /rolls/{roll_id}].  A mapped object is always true, so
    [if not db_roll] is the test for [None]. *)
Definition delete_roll (roll_id : Z) : M Roll :=
  try_except
    (db_roll <- db_get roll_id ;;
     match db_roll with
     | None => raise (HTTPException 404 "Roll not found")
     | Some r =>
         match removed_date r with
         | Some _ => raise (HTTPException 400 "Roll already removed")
         | None =>
             now <- get_utc_time ;;
             set_removed_date roll_id now ;;
             db_commit ;;
             db_refresh roll_id
         end
     end)
    except_with_rollback.

(** *** SQL conditions

    A condition over a row evaluates in three-valued logic: [None] is SQL's
    unknown, which a [WHERE] or [ON] clause treats like false. *)

Definition sql_bool := option bool.

Definition sql_and (a b : sql_bool) : sql_bool :=
  match a, b with
  | Some false, _ | _, Some false => Some false
  | Some true, Some true => Some true
  | _, _ => None
  end.

Definition sql_or (a b : sql_bool) : sql_bool :=
  match a, b with
  | Some true, _ | _, Some true => Some true
  | Some false, Some false => Some false
  | _, _ => None
  end.

Definition sql_is_true (a : sql_bool) : bool :=
  match a with Some true => true | _ => false end.

(** [and_( *conds)]; the empty conjunction is true. *)
Definition sql_all (conds : list sql_bool) : sql_bool :=
  fold_right sql_and (Some true) conds.

Definition condition := Roll -> sql_bool.

(** Comparisons of a column with a bound parameter. *)
Definition col_ge {A} (leb : A -> A -> bool) (col : Roll -> option A) (x : A) : condition :=
  fun r => match col r with Some v => Some (leb x v) | None => None end.
Definition col_le {A} (leb : A -> A -> bool) (col : Roll -> option A) (x : A) : condition :=
  fun r => match col r with Some v => Some (leb v x) | None => None end.
Definition col_is_none {A} (col : Roll -> option A) : condition :=
  fun r => match col r with Some _ => Some false | None => Some true end.
Definition col_isnot_none {A} (col : Roll -> option A) : condition :=
  fun r => match col r with Some _ => Some true | None => Some false end.
(** [col.between(a, b)] is [col >= a AND col <= b]. *)
Definition col_between {A} (leb : A -> A -> bool) (col : Roll -> option A) (a b : A) : condition :=
  fun r => sql_and (col_ge leb col a r) (col_le leb col b r).

(** The columns of [models.Roll]; only [removed_date] is nullable. *)
Definition Roll_id (r : Roll) : option Z := Some (id r).
Definition Roll_length (r : Roll) : option Q := Some (length r).
Definition Roll_weight (r : Roll) : option Q := Some (weight r).
Definition Roll_added_date (r : Roll) : option datetime := Some (added_date r).
Definition Roll_removed_date (r : Roll) : option datetime := removed_date r.

(** [query.filter( *filters)]: the rows on which every criterion is true. *)
Definition sql_where (filters : list condition) (rs : list Roll) : list Roll :=
  List.filter (fun r => sql_is_true (sql_all (map (fun c => c r) filters))) rs.

(** *** get_rolls *)

Record RollsQuery := mkRollsQuery {
  id_start : option Z;         id_end : option Z;
  length_start : option Q;     length_end : option Q;
  weight_start : option Q;     weight_end : option Q;
  added_start : option datetime;   added_end : option datetime;
  removed_start : option datetime; removed_end : option datetime
}.

(** [if x is not None: filters.append(f x)] *)
Definition append_if {A} (x : option A) (f : A -> condition)
    (filters : list condition) : list condition :=
  match x with
  | Some a => filters ++ [f a]
  | None => filters
  end.

Definition get_rolls_filters (q : RollsQuery) : list condition :=
  let filters := [] in
  let filters := append_if (id_start q) (col_ge Z.leb Roll_id) filters in
  let filters := append_if (id_end q) (col_le Z.leb Roll_id) filters in
  let filters := append_if (length_start q) (col_ge Qle_bool Roll_length) filters in
  let filters := append_if (length_end q) (col_le Qle_bool Roll_length) filters in
  let filters := append_if (weight_start q) (col_ge Qle_bool Roll_weight) filters in
  let filters := append_if (weight_end q) (col_le Qle_bool Roll_weight) filters in
  let filters := append_if (added_start q) (col_ge Z.leb Roll_added_date) filters in
  let filters := append_if (added_end q) (col_le Z.leb Roll_added_date) filters in
  let filters := append_if (removed_start q) (col_ge Z.leb Roll_removed_date) filters in
  let filters := append_if (removed_end q) (col_le Z.leb Roll_removed_date) filters in
  filters.

(** [db.query(models.Roll).filter( *filters).all()] *)
Definition db_query_all (filters : list condition) : M (list Roll) :=
  roundtrip ActQuery ;;
  fun w => (Ok (sql_where filters (rolls w)), w).

(** [GET /rolls/] *)
Definition get_rolls (q : RollsQuery) : M (list Roll) :=
  try_except
    (db_query_all (get_rolls_filters q))
    except_plain.

(** *** SQL aggregates

    [COUNT] of no row is 0; every other aggregate of no row is NULL. *)

Definition sql_count {A} (xs : list A) : Z := Z.of_nat (List.length xs).

Definition Qsum (xs : list Q) : Q := fold_right Qplus 0%Q xs.

Definition sql_sum (xs : list Q) : option Q :=
  match xs with
  | [] => None
  | _ => Some (Qsum xs)
  end.

Definition sql_avg (xs : list Q) : option Q :=
  match xs with
  | [] => None
  | _ => Some (Qsum xs / inject_Z (sql_count xs))%Q
  end.

Definition sql_extremum {A} (pick : A -> A -> A) (xs : list A) : option A :=
  match xs with
  | [] => None
  | x :: xs' => Some (fold_left pick xs' x)
  end.

(** [COALESCE(x, d)] *)
Definition coalesce {A} (x : option A) (d : A) : A :=
  match x with Some a => a | None => d end.

(** [removed_date - added_date], an interval in microseconds; NULL for a
    roll that is still in the warehouse. *)
Definition dwell (r : Roll) : option Z :=
  match removed_date r with
  | Some t => Some (t - added_date r)
  | None => None
  end.

(** [extract('epoch', i) / 86400]: the interval in days. *)
Definition epoch_days (i : Z) : Q :=
  ((i # 1) / inject_Z MICROSECOND_PER_SECOND / 86400)%Q.

(** *** Python helpers *)

(** Truth value of an optional number: [None] and zero are false. *)
Definition truthy (x : option Q) : bool :=
  match x with
  | Some q => negb (Qeq_bool q 0)
  | None => false
  end.

(** Rounding to the nearest integer, ties to even. *)
Definition round_half_even (x : Q) : Z :=
  let f := Qfloor x in
  match (x - inject_Z f ?= 1 # 2)%Q with
  | Lt => f
  | Gt => f + 1
  | Eq => if Z.even f then f else f + 1
  end.

(** [round(x, 2)] *)
Definition round2 (x : Q) : Q :=
  Qred (inject_Z (round_half_even (x * 100)) / 100)%Q.

(** [min(days)] on a non-empty list, [None] on an empty one
    ([min(l) if l else None]). *)
Definition min_day (days : list date) : option date :=
  match days with
  | [] => None
  | d :: ds => Some (fold_left Z.min ds d)
  end.

(** *** The rows of the daily series *)

Record DayRow := mkDayRow {
  day : date;
  rolls_count : Z;
  total_weight : Q
}.

(** [generate_series(a, b, interval '1 day')] *)
Definition generate_series (a b : date) : list date := seqZ a (b - a + 1).

(** The [ON] clause of the join, for the series element [d]. *)
Definition on_day (day_start : date -> datetime) (d : date) : condition :=
  fun r =>
    sql_and (Some (added_date r <? day_start (d + 1)))
            (sql_or (col_ge Z.leb Roll_removed_date (day_start d) r)
                    (col_is_none Roll_removed_date r)).

(** [series LEFT JOIN rolls ON ...]: a day with no matching roll keeps one
    row, with NULLs in the columns of [rolls]. *)
Definition left_join (on : date -> condition) (series : list date)
    (rs : list Roll) : list (date * option Roll) :=
  flat_map (fun d =>
              match sql_where [on d] rs with
              | [] => [(d, None)]
              | ms => map (fun r => (d, Some r)) ms
              end) series.

(** The select list over one group: [COUNT(rolls.id)] counts the non-NULL
    ids, [SUM(rolls.weight)] adds the non-NULL weights. *)
Definition select_group (d : date) (joined : list (date * option Roll)) : DayRow :=
  let group := omap snd (List.filter (fun p => fst p =? d) joined) in
  mkDayRow d (sql_count (map id group))
             (coalesce (sql_sum (map weight group)) 0%Q).

(** [GROUP BY day ORDER BY day] *)
Definition group_by_day (joined : list (date * option Roll)) : list DayRow :=
  map (fun d => select_group d joined)
      (merge_sort Z.le (remove_dups (map fst joined))).

Definition daily_series_sql (day_start : date -> datetime)
    (start_date end_date : date) (rs : list Roll) : list DayRow :=
  group_by_day (left_join (on_day day_start) (generate_series start_date end_date) rs).

(** *** The scan for the extreme days *)

Record ScanState := mkScanState {
  min_count : option Z;   min_count_days : list date;
  max_count : option Z;   max_count_days : list date;
  min_weight : option Q;  min_weight_days : list date;
  max_weight : option Q;  max_weight_days : list date
}.

Definition scan_init : ScanState :=
  mkScanState None [] None [] None [] None [].

(** One [if ... elif ...] of the loop body: [beats v m] is the strict
    comparison of the new value with the running extremum. *)
Definition track {V} (beats same : V -> V -> bool)
    (cur : option V) (days : list date) (d : date) (v : V)
    : option V * list date :=
  match cur with
  | None => (Some v, [d])
  | Some m =>
      if beats v m then (Some v, [d])
      else if same v m then (Some m, days ++ [d])
      else (Some m, days)
  end.

Definition Qlt_bool (x y : Q) : bool := negb (Qle_bool y x).

Definition scan_step (st : ScanState) (row : DayRow) : ScanState :=
  let current_day := day row in
  let count := rolls_count row in
  let weight := total_weight row in
  let '(min_c, min_c_days) :=
    track Z.ltb Z.eqb (min_count st) (min_count_days st) current_day count in
  let '(max_c, max_c_days) :=
    track Z.gtb Z.eqb (max_count st) (max_count_days st) current_day count in
  let '(min_w, min_w_days) :=
    track Qlt_bool Qeq_bool (min_weight st) (min_weight_days st) current_day weight in
  let '(max_w, max_w_days) :=
    track (fun x y => Qlt_bool y x) Qeq_bool
          (max_weight st) (max_weight_days st) current_day weight in
  mkScanState min_c min_c_days max_c max_c_days min_w min_w_days max_w max_w_days.

Definition scan (rows : list DayRow) : ScanState :=
  fold_left scan_step rows scan_init.

(** *** get_statistics *)

(** The row of the [stats] query. *)
Module StatsRow.
Record t := mk {
  avg_length : option Q;  avg_weight : option Q;
  min_length : option Q;  max_length : option Q;
  min_weight : option Q;  max_weight : option Q;
  total_weight : option Q
}.
End StatsRow.

(** The row of [interval_query]. *)
Module IntervalRow.
Record t := mk {
  max_days : option Q;
  min_days : option Q
}.
End IntervalRow.

(** schemas.StatisticsResponse *)
Module StatisticsResponse.
Record t := mk {
  added_count : Z;
  removed_count : Z;
  avg_length : option Q;  avg_weight : option Q;
  min_length : option Q;  max_length : option Q;
  min_weight : option Q;  max_weight : option Q;
  total_weight : option Q;
  max_interval : option Q;
  min_interval : option Q;
  day_min_count : option date;
  day_max_count : option date;
  day_min_weight : option date;
  day_max_weight : option date
}.
End StatisticsResponse.

Definition presence_condition (start_date end_date : datetime) : condition :=
  fun r =>
    sql_and (col_le Z.leb Roll_added_date end_date r)
            (sql_or (col_ge Z.leb Roll_removed_date start_date r)
                    (col_is_none Roll_removed_date r)).

(** [db.query(func.count(models.Roll.id)).filter(...).scalar()] *)
Definition db_count (filters : list condition) : M Z :=
  roundtrip ActQuery ;;
  fun w => (Ok (sql_count (map id (sql_where filters (rolls w)))), w).

Definition stats_row (rs : list Roll) : StatsRow.t :=
  StatsRow.mk
    (sql_avg (map length rs)) (sql_avg (map weight rs))
    (sql_extremum Qmin (map length rs)) (sql_extremum Qmax (map length rs))
    (sql_extremum Qmin (map weight rs)) (sql_extremum Qmax (map weight rs))
    (sql_sum (map weight rs)).

(** An aggregate query without [GROUP BY] always has one row, so
    [.first()] is never [None]; [interval_query] keeps the [option], since
    the handler tests it. *)
Definition db_first_stats (filters : list condition) : M StatsRow.t :=
  roundtrip ActQuery ;;
  fun w => (Ok (stats_row (sql_where filters (rolls w))), w).

Definition interval_row (rs : list Roll) : IntervalRow.t :=
  IntervalRow.mk
    (epoch_days <$> sql_extremum Z.max (omap dwell rs))
    (epoch_days <$> sql_extremum Z.min (omap dwell rs)).

Definition db_first_intervals (filters : list condition) : M (option IntervalRow.t) :=
  roundtrip ActQuery ;;
  fun w => (Ok (Some (interval_row (sql_where filters (rolls w)))), w).

(** [db.execute(text(sql), {...}).fetchall()] *)
Definition db_execute_daily (start_date end_date : date) : M (list DayRow) :=
  roundtrip ActExecute ;;
  fun w => (Ok (daily_series_sql (day_start w) start_date end_date (rolls w)), w).

(** [round(row.field, 2) if row and row.field else None] *)
Definition rounded_interval (interval_query : option IntervalRow.t)
    (field : IntervalRow.t -> option Q) : option Q :=
  match interval_query with
  | Some row => if truthy (field row) then round2 <$> field row else None
  | None => None
  end.

(** [GET /rolls/statistics] *)
Definition get_statistics (start_date end_date : datetime) : M StatisticsResponse.t :=
  try_except
    (if start_date >? end_date
     then raise (HTTPException 400 "Start date must be before end date")
     else
       let presence := presence_condition start_date end_date in
       added_count <- db_count [col_between Z.leb Roll_added_date start_date end_date] ;;
       removed_count <- db_count [col_between Z.leb Roll_removed_date start_date end_date] ;;
       stats <- db_first_stats [presence] ;;
       interval_query <- db_first_intervals [col_isnot_none Roll_removed_date; presence] ;;
       let max_interval := rounded_interval interval_query IntervalRow.max_days in
       let min_interval := rounded_interval interval_query IntervalRow.min_days in
       let start_date_utc := utc_date start_date in
       let end_date_utc := utc_date end_date in
       rows <- db_execute_daily start_date_utc end_date_utc ;;
       let st := scan rows in
       ret (StatisticsResponse.mk
              added_count removed_count
              (StatsRow.avg_length stats) (StatsRow.avg_weight stats)
              (StatsRow.min_length stats) (StatsRow.max_length stats)
              (StatsRow.min_weight stats) (StatsRow.max_weight stats)
              (StatsRow.total_weight stats)
              max_interval min_interval
              (min_day (min_count_days st)) (min_day (max_count_days st))
              (min_day (min_weight_days st)) (min_day (max_weight_days st))))
    except_plain.

(** What the handler returns when every call to the database is answered:
    the body of [get_statistics], over the table [rs]. *)
Definition statistics_on (day_start : date -> datetime) (rs : list Roll)
    (start_date end_date : datetime) : StatisticsResponse.t :=
  let presence := presence_condition start_date end_date in
  let stats := stats_row (sql_where [presence] rs) in
  let interval_query :=
    Some (interval_row (sql_where [col_isnot_none Roll_removed_date; presence] rs)) in
  let st := scan (daily_series_sql day_start (utc_date start_date)
                                   (utc_date end_date) rs) in
  StatisticsResponse.mk
    (sql_count (map id (sql_where
       [col_between Z.leb Roll_added_date start_date end_date] rs)))
    (sql_count (map id (sql_where
       [col_between Z.leb Roll_removed_date start_date end_date] rs)))
    (StatsRow.avg_length stats) (StatsRow.avg_weight stats)
    (StatsRow.min_length stats) (StatsRow.max_length stats)
    (StatsRow.min_weight stats) (StatsRow.max_weight stats)
    (StatsRow.total_weight stats)
    (rounded_interval interval_query IntervalRow.max_days)
    (rounded_interval interval_query IntervalRow.min_days)
    (min_day (min_count_days st)) (min_day (max_count_days st))
    (min_day (min_weight_days st)) (min_day (max_weight_days st)).

(** ** The listing, as the specification words it

    An absent bound asks nothing; a present bound asks that the column have
    a value on the right side of it, the bound included. *)

Definition above {A} (le : A -> A -> Prop) (lo : option A) (v : option A) : Prop :=
  match lo with
  | Some x => exists y, v = Some y /\ le x y
  | None => True
  end.

Definition below {A} (le : A -> A -> Prop) (hi : option A) (v : option A) : Prop :=
  match hi with
  | Some x => exists y, v = Some y /\ le y x
  | None => True
  end.

Definition in_range {A} (le : A -> A -> Prop) (lo hi : option A) (v : option A) : Prop :=
  above le lo v /\ below le hi v.

Definition satisfies (q : RollsQuery) (r : Roll) : Prop :=
  in_range Z.le (id_start q) (id_end q) (Some (id r)) /\
  in_range Qle (length_start q) (length_end q) (Some (length r)) /\
  in_range Qle (weight_start q) (weight_end q) (Some (weight r)) /\
  in_range Z.le (added_start q) (added_end q) (Some (added_date r)) /\
  in_range Z.le (removed_start q) (removed_end q) (removed_date r).

Definition no_filters : RollsQuery :=
  mkRollsQuery None None None None None None None None None None.

(** ** The extreme days, as the specification words them

    [d] is the earliest day of the series on which [val] is extreme for the
    order [le] (least for [<=], greatest for [>=]). *)
Definition earliest_extreme_day {V} (le : V -> V -> Prop) (val : DayRow -> V)
    (rows : list DayRow) (d : date) : Prop :=
  exists r, r ∈ rows /\ day r = d /\
    (forall r', r' ∈ rows -> le (val r) (val r')) /\
    (forall r', r' ∈ rows -> le (val r') (val r) -> d <= day r').

(** One of the four running extrema of the scan, followed on its own. *)
Definition track_row {V} (beats same : V -> V -> bool) (val : DayRow -> V)
    (st : option V * list date) (row : DayRow) : option V * list date :=
  track beats same st.1 st.2 (day row) (val row).

(** What the scan knows of one extremum after the rows [rows]. *)
Definition track_inv {V} (le : V -> V -> Prop) (val : DayRow -> V)
    (rows : list DayRow) (st : option V * list date) : Prop :=
  match st.1 with
  | None => rows = [] /\ st.2 = []
  | Some m =>
      exists r, r ∈ rows /\ m = val r /\
        (forall r', r' ∈ rows -> le m (val r')) /\
        (forall d, d ∈ st.2 <-> exists r', r' ∈ rows /\ day r' = d /\ le (val r') m)
  end.

Definition sample_series : list DayRow :=
  [ mkDayRow 20000 2 20; mkDayRow 20001 1 15; mkDayRow 20002 2 20;
    mkDayRow 20003 1 15 ].

(** ** Presence on a day, as the specification words it:
    [added_date < d + 1 day AND (removed_date >= d OR removed_date IS NULL)]. *)
Definition present_on (day_start : date -> datetime) (d : date) (r : Roll) : bool :=
  (added_date r <? day_start (d + 1)) &&
  match removed_date r with
  | Some t => day_start d <=? t
  | None => true
  end.

(** The rows that [left_join] makes for the series element [d]. *)
Definition join_block (on : date -> condition) (rs : list Roll) (d : date)
    : list (date * option Roll) :=
  match sql_where [on d] rs with
  | [] => [(d, None)]
  | ms => map (fun r => (d, Some r)) ms
  end.

(** ** Sample worlds, used to run the handlers *)

Definition utc_midnight (d : date) : datetime := d * MICROSECOND_PER_DAY.

Definition world_of (rs : list Roll) (sq : Z) (now : datetime) (fs : list bool) : World :=
  mkWorld rs sq [] now utc_midnight fs [].

Definition sample_day : date := 20000.

Definition sample_rolls : list Roll :=
  [ mkRoll 1 10 5 (utc_midnight sample_day + 3600 * MICROSECOND_PER_SECOND)
           (Some (utc_midnight (sample_day + 1) + 3600 * MICROSECOND_PER_SECOND));
    mkRoll 2 20 15 (utc_midnight sample_day + 3600 * MICROSECOND_PER_SECOND)
           None ].

Definition sample_world : World :=
  world_of sample_rolls 3 (utc_midnight (sample_day + 2)) [].

(** A roll that was removed in the second in which it was added. *)
Definition instant_rolls : list Roll :=
  [ mkRoll 1 10 5 (3600 * MICROSECOND_PER_SECOND)
           (Some (3600 * MICROSECOND_PER_SECOND)) ].

(** ** The service: one request, served with a session of its own *)

Inductive Request :=
| CreateRoll (roll : RollCreate)
| DeleteRoll (roll_id : Z)
| GetRolls (q : RollsQuery)
| GetStatistics (start_date end_date : datetime).

Inductive Payload :=
| RollPayload (r : Roll)
| RollsPayload (rs : list Roll)
| StatisticsPayload (s : StatisticsResponse.t).

Definition payload {A} (f : A -> Payload) (m : M A) : M Payload :=
  a <- m ;; ret (f a).

Definition serve (req : Request) : M Payload :=
  get_db
    match req with
    | CreateRoll roll => payload RollPayload (create_roll roll)
    | DeleteRoll roll_id => payload RollPayload (delete_roll roll_id)
    | GetRolls q => payload RollsPayload (get_rolls q)
    | GetStatistics s e => payload StatisticsPayload (get_statistics s e)
    end.

(** A computation that leaves the table, its sequence and the session's
    time zone alone, whatever it returns. *)
Definition keeps_table {A} (m : M A) : Prop :=
  forall w, rolls (m w).2 = rolls w /\
            rolls_id_seq (m w).2 = rolls_id_seq w /\
            day_start (m w).2 = day_start w.

(** The primary key of the table. *)
Definition primary_key (w : World) : Prop := NoDup (map id (rolls w)).

(** The life of the service: requests, between which time passes and the
    database may start or stop failing. *)
Inductive Event :=
| Serve (req : Request)
| Tick (now : datetime)
| Outage (fs : list bool).

Definition step (w : World) (ev : Event) : World :=
  match ev with
  | Serve req => (serve req w).2
  | Tick now =>
      mkWorld (rolls w) (rolls_id_seq w) (session w) now (day_start w)
              (faults w) (trace w)
  | Outage fs => set_faults fs w
  end.

Definition run (events : list Event) (w : World) : World :=
  fold_left step events w.

Definition sample_events : list Event :=
  [ Serve (DeleteRoll 1);
    Serve (CreateRoll (mkRollCreate 3 4));
    Tick (utc_midnight (sample_day + 3));
    Outage [false; true];
    Serve (DeleteRoll 2);
    Serve (DeleteRoll 1);
    Outage [];
    Serve (DeleteRoll 2);
    Serve (GetRolls no_filters) ].

(** ** Further vocabulary *)

(** database.py: the connection string handed to [create_engine]. *)
Definition SQLALCHEMY_DATABASE_URL (db_config : Config.DbConfig) : string :=
  "postgresql://" +:+ Config.username db_config +:+ ":" +:+
  Config.password db_config +:+ "@" +:+ Config.host db_config +:+ "/" +:+
  Config.database db_config.

(** The row [r] once [UPDATE rolls SET removed_date = t] has touched it. *)
Definition stamped (t : datetime) (r : Roll) : Roll :=
  mkRoll (id r) (length r) (weight r) (added_date r) (Some t).

(** The row that [create_roll] inserts in the world [w]. *)
Definition new_roll (roll : RollCreate) (w : World) : Roll :=
  mkRoll (rolls_id_seq w) (rc_length roll) (rc_weight roll)
         (replace_microsecond_0 (clock w)) None.

(** Every id of the table was drawn from the sequence. *)
Definition ids_below_seq (w : World) : Prop :=
  Forall (fun r => id r < rolls_id_seq w) (rolls w).

(** [r'] is the roll [r], but for its [removed_date]. *)
Definition same_roll (r r' : Roll) : Prop :=
  id r' = id r /\ length r' = length r /\ weight r' = weight r /\
  added_date r' = added_date r.

(** The events that are not a create or a delete request. *)
Definition is_read (ev : Event) : bool :=
  match ev with
  | Serve (CreateRoll _) | Serve (DeleteRoll _) => false
  | _ => true
  end.

(** [GET /rolls/?id_start=x&id_end=x] *)
Definition by_id (x : Z) : RollsQuery :=
  mkRollsQuery (Some x) (Some x) None None None None None None None None.

(** A pair of bounds that no value can meet. *)
Definition crossed {A} (lt : A -> A -> Prop) (lo hi : option A) : Prop :=
  exists a b, lo = Some a /\ hi = Some b /\ lt b a.

Definition crossed_bounds (q : RollsQuery) : Prop :=
  crossed Z.lt (id_start q) (id_end q) \/
  crossed Qlt (length_start q) (length_end q) \/
  crossed Qlt (weight_start q) (weight_end q) \/
  crossed Z.lt (added_start q) (added_end q) \/
  crossed Z.lt (removed_start q) (removed_end q).


(** The rolls over which [get_statistics] aggregates. *)
Definition presence_set (rs : list Roll) (start_date end_date : datetime) : list Roll :=
  sql_where [presence_condition start_date end_date] rs.

(** * Properties *)

(** ** Validation failures

    An [HTTPException] raised inside the [try] is an [Exception]: the last
    [except] clause catches it and raises a new one, with status 500. *)

Lemma except_with_rollback_http {A} s d :
  @except_with_rollback A (HTTPException s d) =
  raise (HTTPException 500 ("Unexpected error: " +:+ pretty s +:+ ": " +:+ d)).
Proof. reflexivity. Qed.

Lemma except_plain_http {A} s d :
  @except_plain A (HTTPException s d) =
  raise (HTTPException 500 ("Unexpected error: " +:+ pretty s +:+ ": " +:+ d)).
Proof. reflexivity. Qed.

(** C1 (as the code behaves): a create request with [length <= 0] or
    [weight <= 0] is refused before anything is done, the world is left
    exactly as it was (no row, no session or database call), but the
    answer carries status 500 and the wrapped message, not status 400. *)
Theorem create_roll_nonpositive_answers_500 (roll : RollCreate) (w : World) :
  (rc_length roll <= 0 \/ rc_weight roll <= 0)%Q ->
  create_roll roll w =
  (Raise (HTTPException 500
            "Unexpected error: 400: Length and weight must be positive"), w).
Proof.
  intros H. unfold create_roll, try_except.
  assert (Hb : Qle_bool (rc_length roll) 0 || Qle_bool (rc_weight roll) 0 = true).
  { apply orb_true_iff. destruct H as [H | H]; [left | right];
      by apply Qle_bool_iff. }
  rewrite Hb. reflexivity.
Qed.

Lemma create_roll_nonpositive_answers_500_witness :
  create_roll (mkRollCreate 0 5) (world_of [] 1 0 []) =
  (Raise (HTTPException 500
            "Unexpected error: 400: Length and weight must be positive"),
   world_of [] 1 0 []).
Proof.
  apply create_roll_nonpositive_answers_500. left. unfold Qle. simpl. lia.
Defined.

Lemma roundtrip_no_fault a w :
  hd false (faults w) = false ->
  roundtrip a w = (Ok tt, set_faults (tl (faults w)) (log a w)).
Proof.
  unfold roundtrip. destruct w as [rs sq se cl ds fs tr]; simpl.
  destruct fs as [|[] fs]; simpl; intros; by try discriminate.
Qed.

(** C2 (as the code behaves): deleting an id that is not in the table and
    deleting a roll that is already removed both leave the table as it
    was, and are told apart by the message only: both answers carry
    status 500, where 404 and 400 were meant. *)
Theorem delete_roll_failures_answer_500 (roll_id : Z) (w : World) :
  hd false (faults w) = false ->
  (find_roll roll_id (rolls w) = None ->
   (delete_roll roll_id w).1 =
     Raise (HTTPException 500 "Unexpected error: 404: Roll not found")) /\
  (forall r t, find_roll roll_id (rolls w) = Some r -> removed_date r = Some t ->
   (delete_roll roll_id w).1 =
     Raise (HTTPException 500 "Unexpected error: 400: Roll already removed")) /\
  ((forall r, find_roll roll_id (rolls w) = Some r -> removed_date r <> None) ->
   rolls (delete_roll roll_id w).2 = rolls w).
Proof.
  intros Hf.
  unfold delete_roll, try_except, db_get, bind.
  rewrite (roundtrip_no_fault _ _ Hf). simpl.
  repeat split.
  - intros ->. reflexivity.
  - intros r t -> Ht. rewrite Ht. reflexivity.
  - intros Hr. destruct (find_roll roll_id (rolls w)) as [r|] eqn:E; [|done].
    specialize (Hr r eq_refl).
    destruct (removed_date r); [done | congruence].
Qed.

Lemma delete_roll_failures_answer_500_witness :
  (delete_roll 7 sample_world).1 =
    Raise (HTTPException 500 "Unexpected error: 404: Roll not found") /\
  (delete_roll 1 sample_world).1 =
    Raise (HTTPException 500 "Unexpected error: 400: Roll already removed").
Proof.
  split.
  - apply (delete_roll_failures_answer_500 7 sample_world); reflexivity.
  - eapply (proj1 (proj2 (delete_roll_failures_answer_500 1 sample_world eq_refl)));
      reflexivity.
Defined.

(** ** Frame properties of the session calls *)

Create HintDb frame.

Lemma keeps_ret {A} (a : A) : keeps_table (ret a).
Proof. by intros w. Qed.

Lemma keeps_raise {A} e : keeps_table (@raise A e).
Proof. by intros w. Qed.

Lemma keeps_bind {A B} (m : M A) (k : A -> M B) :
  keeps_table m -> (forall a, keeps_table (k a)) -> keeps_table (bind m k).
Proof.
  intros Hm Hk w. unfold bind. specialize (Hm w).
  destruct (m w) as [[a|e] w1]; simpl in *; [|done].
  destruct (Hk a w1) as (-> & -> & ->). done.
Qed.

Lemma keeps_try_except {A} (m : M A) (h : exn -> M A) :
  keeps_table m -> (forall e, keeps_table (h e)) -> keeps_table (try_except m h).
Proof.
  intros Hm Hh w. unfold try_except. specialize (Hm w).
  destruct (m w) as [[a|e] w1]; simpl in *; [done|].
  destruct (Hh e w1) as (-> & -> & ->). done.
Qed.

Lemma keeps_roundtrip a : keeps_table (roundtrip a).
Proof.
  intros [rs sq se cl ds fs tr]. unfold roundtrip; simpl.
  by destruct fs as [|[] fs].
Qed.

Lemma keeps_pure {A} (f : World -> A) : keeps_table (fun w => (Ok (f w), w)).
Proof. by intros w. Qed.

Lemma keeps_get_db {A} (m : M A) : keeps_table m -> keeps_table (get_db m).
Proof.
  intros Hm w. unfold get_db. specialize (Hm (set_session [] w)).
  by destruct (m (set_session [] w)) as [r w1].
Qed.

Lemma keeps_if {A} (b : bool) (m1 m2 : M A) :
  keeps_table m1 -> keeps_table m2 -> keeps_table (if b then m1 else m2).
Proof. by destruct b. Qed.

Lemma keeps_except_plain {A} e : keeps_table (@except_plain A e).
Proof. destruct e; apply keeps_raise. Qed.

#[local] Hint Resolve keeps_ret keeps_raise keeps_roundtrip keeps_pure
  keeps_except_plain : frame.
#[local] Hint Extern 2 (keeps_table (bind _ _)) =>
  apply keeps_bind; [| intros ?] : frame.
#[local] Hint Extern 2 (keeps_table (try_except _ _)) =>
  apply keeps_try_except; [| intros ?] : frame.
#[local] Hint Extern 2 (keeps_table (if _ then _ else _)) =>
  apply keeps_if : frame.
#[local] Hint Extern 2 (keeps_table (get_db _)) => apply keeps_get_db : frame.

Lemma keeps_get_rolls q : keeps_table (get_rolls q).
Proof. unfold get_rolls, db_query_all. auto 10 with frame. Qed.

Lemma keeps_get_statistics s e : keeps_table (get_statistics s e).
Proof.
  unfold get_statistics, db_count, db_first_stats, db_first_intervals,
    db_execute_daily.
  auto 30 with frame.
Qed.

(** C10: listing and statistics are read-only.  Whatever the request and
    whatever the outcome (a result, a refused request, a database fault),
    the table after the request is the table before it, row for row and
    field for field; this holds of the bare handlers and of the requests
    served through [get_db]. *)
Theorem list_and_statistics_keep_rolls :
  (forall q w, rolls (get_rolls q w).2 = rolls w) /\
  (forall s e w, rolls (get_statistics s e w).2 = rolls w) /\
  (forall q w, rolls (serve (GetRolls q) w).2 = rolls w) /\
  (forall s e w, rolls (serve (GetStatistics s e) w).2 = rolls w).
Proof.
  pose proof keeps_get_rolls. pose proof keeps_get_statistics.
  repeat split; intros.
  - by apply keeps_get_rolls.
  - by apply keeps_get_statistics.
  - assert (keeps_table (serve (GetRolls q))) as K
      by (unfold serve, payload; auto 10 with frame).
    by apply K.
  - assert (keeps_table (serve (GetStatistics s e))) as K
      by (unfold serve, payload; auto 10 with frame).
    by apply K.
Qed.

(** ** get_statistics on a database that answers *)

Lemma roundtrip_nil a w :
  faults w = [] -> roundtrip a w = (Ok tt, log a w).
Proof.
  unfold roundtrip. destruct w as [rs sq se cl ds fs tr]; simpl.
  by intros ->.
Qed.

(** Every successful answer of [get_statistics] is [statistics_on] the
    table, and without faults a well-ordered range is always answered. *)
Lemma get_statistics_returns s e w resp w' :
  get_statistics s e w = (Ok resp, w') ->
  s <= e /\ resp = statistics_on (day_start w) (rolls w) s e.
Proof.
  unfold get_statistics, try_except.
  destruct (s >? e) eqn:Hse; [discriminate|].
  assert (s <= e) by lia.
  unfold db_count, db_first_stats, db_first_intervals, db_execute_daily,
    bind, roundtrip.
  destruct w as [rs sq se cl ds fs tr]; simpl.
  destruct fs as [|[] fs]; simpl; try discriminate;
  try (destruct fs as [|[] fs]; simpl; try discriminate;
    try (destruct fs as [|[] fs]; simpl; try discriminate;
      try (destruct fs as [|[] fs]; simpl; try discriminate;
        try (destruct fs as [|[] fs]; simpl; try discriminate))));
  intros [= <- <-]; done.
Qed.

Lemma get_statistics_answers s e w :
  s <= e -> faults w = [] ->
  exists w', get_statistics s e w =
               (Ok (statistics_on (day_start w) (rolls w) s e), w').
Proof.
  intros Hse Hf.
  unfold get_statistics, try_except.
  destruct (s >? e) eqn:Hgt; [lia|].
  unfold db_count, db_first_stats, db_first_intervals, db_execute_daily,
    bind, roundtrip.
  destruct w as [rs sq se cl ds fs tr]; simpl in *. subst fs. simpl.
  eexists. reflexivity.
Qed.

(** C3 (as the code behaves): a range with [start_date > end_date] is
    refused before any query (the world, trace included, is untouched),
    but with status 500 and the wrapped message instead of status 400; a
    range with [start_date <= end_date] passes the check and, on a database
    that answers, gets its statistics. *)
Theorem get_statistics_reversed_range_answers_500 (s e : datetime) (w : World) :
  (s > e ->
   get_statistics s e w =
   (Raise (HTTPException 500
             "Unexpected error: 400: Start date must be before end date"), w)) /\
  (s <= e -> faults w = [] ->
   exists resp w', get_statistics s e w = (Ok resp, w')).
Proof.
  split.
  - intros H. unfold get_statistics, try_except.
    replace (s >? e) with true by lia. reflexivity.
  - intros Hse Hf. destruct (get_statistics_answers s e w Hse Hf) as [w' E].
    eauto.
Qed.

Lemma get_statistics_reversed_range_answers_500_witness :
  get_statistics 5 4 sample_world =
  (Raise (HTTPException 500
            "Unexpected error: 400: Start date must be before end date"),
   sample_world) /\
  exists resp w', get_statistics 4 5 sample_world = (Ok resp, w').
Proof.
  split.
  - apply (proj1 (get_statistics_reversed_range_answers_500 5 4 sample_world)).
    reflexivity.
  - apply (proj2 (get_statistics_reversed_range_answers_500 4 5 sample_world)).
    + discriminate.
    + reflexivity.
Defined.

(** ** Filtered listing *)

Lemma sql_all_true (cs : list sql_bool) :
  sql_is_true (sql_all cs) = true <-> Forall (fun c => c = Some true) cs.
Proof.
  induction cs as [|c cs IH]; simpl.
  - split; [constructor | done].
  - rewrite Forall_cons, <- IH.
    destruct c as [[]|], (sql_all cs) as [[]|]; simpl;
      intuition (discriminate || congruence).
Qed.

Lemma elem_of_sql_where (filters : list condition) (rs : list Roll) (r : Roll) :
  r ∈ sql_where filters rs <-> r ∈ rs /\ Forall (fun c => c r = Some true) filters.
Proof.
  unfold sql_where. rewrite !list_elem_of_In, filter_In, sql_all_true.
  rewrite Forall_fmap. done.
Qed.

Lemma Forall_append_if {A} (P : condition -> Prop) (x : option A)
    (f : A -> condition) (filters : list condition) :
  Forall P (append_if x f filters) <->
  Forall P filters /\ match x with Some a => P (f a) | None => True end.
Proof.
  destruct x as [a|]; simpl; [|tauto].
  rewrite Forall_app, Forall_singleton. done.
Qed.

Section bounds.
Context {A : Type} (leb : A -> A -> bool) (le : A -> A -> Prop).
Hypothesis leb_le : forall a b, leb a b = true <-> le a b.

Lemma col_ge_true (col : Roll -> option A) (lo : option A) (r : Roll) :
  match lo with Some x => col_ge leb col x r = Some true | None => True end <->
  above le lo (col r).
Proof.
  destruct lo as [x|]; simpl; [|done]. unfold col_ge.
  destruct (col r) as [v|];
  [|split; [discriminate | by intros (y & Hy & _)]].
  split.
  - intros [= H]. exists v. by rewrite <- leb_le.
  - intros (y & [= <-] & H). by apply leb_le in H as ->.
Qed.

Lemma col_le_true (col : Roll -> option A) (hi : option A) (r : Roll) :
  match hi with Some x => col_le leb col x r = Some true | None => True end <->
  below le hi (col r).
Proof.
  destruct hi as [x|]; simpl; [|done]. unfold col_le.
  destruct (col r) as [v|];
  [|split; [discriminate | by intros (y & Hy & _)]].
  split.
  - intros [= H]. exists v. by rewrite <- leb_le.
  - intros (y & [= <-] & H). by apply leb_le in H as ->.
Qed.
End bounds.

Lemma get_rolls_filters_true (q : RollsQuery) (r : Roll) :
  Forall (fun c => c r = Some true) (get_rolls_filters q) <-> satisfies q r.
Proof.
  unfold get_rolls_filters, satisfies, in_range.
  rewrite !Forall_append_if, Forall_nil.
  rewrite !(col_ge_true Z.leb Z.le Z.leb_le), !(col_le_true Z.leb Z.le Z.leb_le).
  rewrite !(col_ge_true Qle_bool Qle Qle_bool_iff),
          !(col_le_true Qle_bool Qle Qle_bool_iff).
  unfold Roll_id, Roll_length, Roll_weight, Roll_added_date, Roll_removed_date.
  tauto.
Qed.

Lemma sql_where_nil (rs : list Roll) : sql_where [] rs = rs.
Proof.
  unfold sql_where. simpl. induction rs as [|r rs IH]; simpl; congruence.
Qed.

(** C6: a list request answers with exactly the rolls of the table that
    satisfy every supplied bound (inclusive on both sides, nothing asked
    by an absent bound), and with the whole table when no bound is
    supplied; the only other outcome is the server error of a database
    fault. *)
Theorem get_rolls_returns_matching (q : RollsQuery) (w : World) :
  match get_rolls q w with
  | (Ok rs, _) =>
      hd false (faults w) = false /\
      (forall r, r ∈ rs <-> r ∈ rolls w /\ satisfies q r) /\
      (q = no_filters -> rs = rolls w)
  | (Raise e, _) =>
      hd false (faults w) = true /\
      e = HTTPException 500 "Database error: OperationalError"
  end.
Proof.
  unfold get_rolls, try_except, db_query_all, bind, roundtrip.
  destruct w as [rs sq se cl ds fs tr]; simpl.
  destruct fs as [|[] fs]; simpl; try done.
  all: split; [done|]; split.
  all: try (intros r; rewrite elem_of_sql_where, get_rolls_filters_true; done).
  all: intros ->; apply sql_where_nil.
Qed.

(** ** The scan for the extreme days *)

Lemma min_day_least (days : list date) :
  days <> [] ->
  exists d, min_day days = Some d /\ d ∈ days /\ forall d', d' ∈ days -> d <= d'.
Proof.
  destruct days as [|d0 ds]; [done | intros _]. simpl.
  exists (fold_left Z.min ds d0). split; [done|].
  revert d0. induction ds as [|d1 ds IH]; intros d0; simpl.
  - split; [by left|]. intros d' ->%list_elem_of_singleton. lia.
  - destruct (IH (Z.min d0 d1)) as [Hin Hle]. split.
    + apply elem_of_cons in Hin as [->|Hin].
      * destruct (Z.min_spec d0 d1) as [[_ ->]|[_ ->]];
          [by left | right; by left].
      * right. by right.
    + intros d' Hd'.
      assert (fold_left Z.min ds (Z.min d0 d1) <= Z.min d0 d1) by (apply Hle; by left).
      apply elem_of_cons in Hd' as [->|Hd']; [lia|].
      apply elem_of_cons in Hd' as [->|Hd']; [lia|].
      apply Hle. by right.
Qed.

Section track.
Context {V : Type} (beats same : V -> V -> bool).
Context (le : V -> V -> Prop) (val : DayRow -> V).
Hypothesis le_total : forall a b, le a b \/ le b a.
Hypothesis le_trans : forall a b c, le a b -> le b c -> le a c.
Hypothesis beats_spec : forall v m, beats v m = false <-> le m v.
Hypothesis same_spec : forall v m, le m v -> (same v m = true <-> le v m).

Lemma track_inv_step rows st row :
  track_inv le val rows st ->
  track_inv le val (rows ++ [row]) (track_row beats same val st row).
Proof.
  destruct st as [cur days]. unfold track_inv, track_row, track; simpl.
  destruct cur as [m|].
  - intros (r & Hr & -> & Hmin & Hdays).
    destruct (beats (val row) (val r)) eqn:Hb; simpl.
    + assert (~ le (val r) (val row)) as Hb'
        by (intros Hle; apply beats_spec in Hle; congruence).
      clear Hb. rename Hb' into Hb.
      assert (le (val row) (val r)) as Hlt by (destruct (le_total (val row) (val r)); tauto).
      exists row. split; [apply elem_of_app; right; by left|].
      split; [done|]. split.
      * intros r' [Hr'| ->%list_elem_of_singleton]%elem_of_app.
        -- eapply le_trans; [exact Hlt | by apply Hmin].
        -- destruct (le_total (val row) (val row)); done.
      * intros d. rewrite list_elem_of_singleton. split.
        -- intros ->. exists row. split; [apply elem_of_app; right; by left|].
           split; [done|]. destruct (le_total (val row) (val row)); done.
        -- intros (r' & [Hr'| ->%list_elem_of_singleton]%elem_of_app & <- & Hle);
             [|done].
           exfalso. apply Hb. eapply le_trans; [by apply Hmin | done].
    + assert (le (val r) (val row)) as Hge by (by apply beats_spec).
      destruct (same (val row) (val r)) eqn:Hs; simpl.
      * apply (same_spec _ _ Hge) in Hs.
        exists r. split; [apply elem_of_app; by left|]. split; [done|]. split.
        -- intros r' [Hr'| ->%list_elem_of_singleton]%elem_of_app; [by apply Hmin | done].
        -- intros d. rewrite elem_of_app, list_elem_of_singleton, Hdays. split.
           ++ intros [(r' & Hr' & <- & Hle)| ->].
              ** exists r'. split; [apply elem_of_app; by left | done].
              ** exists row. split; [apply elem_of_app; right; by left | done].
           ++ intros (r' & [Hr'| ->%list_elem_of_singleton]%elem_of_app & <- & Hle).
              ** left. by exists r'.
              ** by right.
      * assert (~ le (val row) (val r)) as Hn.
        { intros Hle. apply (same_spec _ _ Hge) in Hle. congruence. }
        exists r. split; [apply elem_of_app; by left|]. split; [done|]. split.
        -- intros r' [Hr'| ->%list_elem_of_singleton]%elem_of_app; [by apply Hmin | done].
        -- intros d. rewrite Hdays. split.
           ++ intros (r' & Hr' & <- & Hle).
              exists r'. split; [apply elem_of_app; by left | done].
           ++ intros (r' & [Hr'| ->%list_elem_of_singleton]%elem_of_app & <- & Hle);
                [by exists r' | done].
  - intros [-> ->]. simpl.
    assert (le (val row) (val row)) by (destruct (le_total (val row) (val row)); done).
    exists row. split; [by left|]. split; [done|]. split.
    + by intros r' ->%list_elem_of_singleton.
    + intros d. rewrite list_elem_of_singleton. split.
      * intros ->. exists row. split; [by left | done].
      * by intros (r' & ->%list_elem_of_singleton & <- & _).
Qed.

Lemma track_inv_fold rows' rows st :
  track_inv le val rows st ->
  track_inv le val (rows ++ rows')
            (fold_left (track_row beats same val) rows' st).
Proof.
  revert rows st. induction rows' as [|row rows' IH]; intros rows st Hinv; simpl.
  - by rewrite app_nil_r.
  - replace (rows ++ row :: rows') with ((rows ++ [row]) ++ rows')
      by (by rewrite <- app_assoc).
    apply IH. by apply track_inv_step.
Qed.

Lemma tracked_earliest rows :
  rows <> [] ->
  exists d,
    min_day (fold_left (track_row beats same val) rows (None, [])).2 = Some d /\
    earliest_extreme_day le val rows d.
Proof.
  intros Hne.
  pose proof (track_inv_fold rows [] (None, []) (conj eq_refl eq_refl)) as Hinv.
  simpl in Hinv.
  destruct (fold_left (track_row beats same val) rows (None, [])) as [cur days].
  unfold track_inv in Hinv; simpl in *.
  destruct cur as [m|]; [|by destruct Hinv].
  destruct Hinv as (r & Hr & -> & Hmin & Hdays).
  assert (days <> []) as Hd.
  { intros ->. assert (day r ∈ @nil date) as Hin; [|by apply elem_of_nil in Hin].
    apply Hdays. exists r. split; [done|]. split; [done|].
    destruct (le_total (val r) (val r)); done. }
  destruct (min_day_least days Hd) as (d & Hmd & Hin & Hleast).
  exists d. split; [done|].
  apply Hdays in Hin as (r0 & Hr0 & Hday & Hle0).
  exists r0. split; [done|]. split; [done|]. split.
  - intros r' Hr'. eapply le_trans; [exact Hle0 | by apply Hmin].
  - intros r' Hr' Hle'. apply Hleast, Hdays.
    exists r'. split; [done|]. split; [done|].
    eapply le_trans; [exact Hle' | exact Hle0].
Qed.
End track.

(** The loop of [get_statistics] follows the four extrema side by side. *)
Lemma scan_step_tracks st row :
  let st' := scan_step st row in
  (min_count st', min_count_days st') =
    track_row Z.ltb Z.eqb rolls_count (min_count st, min_count_days st) row /\
  (max_count st', max_count_days st') =
    track_row Z.gtb Z.eqb rolls_count (max_count st, max_count_days st) row /\
  (min_weight st', min_weight_days st') =
    track_row Qlt_bool Qeq_bool total_weight (min_weight st, min_weight_days st) row /\
  (max_weight st', max_weight_days st') =
    track_row (fun x y => Qlt_bool y x) Qeq_bool total_weight
              (max_weight st, max_weight_days st) row.
Proof.
  unfold scan_step, track_row. simpl.
  destruct (track Z.ltb _ _ _ _ _), (track Z.gtb _ _ _ _ _),
    (track Qlt_bool _ _ _ _ _), (track (fun x y => Qlt_bool y x) _ _ _ _ _).
  done.
Qed.

Lemma fold_scan_step_tracks rows st :
  let st' := fold_left scan_step rows st in
  (min_count st', min_count_days st') =
    fold_left (track_row Z.ltb Z.eqb rolls_count) rows
              (min_count st, min_count_days st) /\
  (max_count st', max_count_days st') =
    fold_left (track_row Z.gtb Z.eqb rolls_count) rows
              (max_count st, max_count_days st) /\
  (min_weight st', min_weight_days st') =
    fold_left (track_row Qlt_bool Qeq_bool total_weight) rows
              (min_weight st, min_weight_days st) /\
  (max_weight st', max_weight_days st') =
    fold_left (track_row (fun x y => Qlt_bool y x) Qeq_bool total_weight) rows
              (max_weight st, max_weight_days st).
Proof.
  revert st. induction rows as [|row rows IH]; intros st; simpl; [done|].
  destruct (scan_step_tracks st row) as (<- & <- & <- & <-). apply IH.
Qed.

Lemma Qlt_bool_false (x y : Q) : Qlt_bool x y = false <-> (y <= x)%Q.
Proof. unfold Qlt_bool. rewrite negb_false_iff. apply Qle_bool_iff. Qed.

Lemma Qeq_bool_le (x y : Q) : (y <= x)%Q -> Qeq_bool x y = true <-> (x <= y)%Q.
Proof.
  intros H. rewrite Qeq_bool_iff. split.
  - intros ->. apply Qle_refl.
  - intros H'. by apply Qle_antisym.
Qed.

(** C4: on a non-empty daily series each of the four reported days
    ([min] of the list of tied days left by the scan) is the earliest day
    of the series on which the count, respectively the total weight, is
    least, respectively greatest. *)
Theorem extreme_days_are_earliest (rows : list DayRow) :
  rows <> [] ->
  let st := scan rows in
  (exists d, min_day (min_count_days st) = Some d /\
             earliest_extreme_day Z.le rolls_count rows d) /\
  (exists d, min_day (max_count_days st) = Some d /\
             earliest_extreme_day Z.ge rolls_count rows d) /\
  (exists d, min_day (min_weight_days st) = Some d /\
             earliest_extreme_day Qle total_weight rows d) /\
  (exists d, min_day (max_weight_days st) = Some d /\
             earliest_extreme_day (fun x y => (y <= x)%Q) total_weight rows d).
Proof.
  intros Hne st.
  destruct (fold_scan_step_tracks rows scan_init) as (E1 & E2 & E3 & E4).
  fold (scan rows) in E1, E2, E3, E4. fold st in E1, E2, E3, E4. simpl in *.
  repeat split.
  - replace (min_count_days st) with (min_count st, min_count_days st).2 by done.
    rewrite E1. apply tracked_earliest; try done; intros; try lia.
    all: try apply Z.ltb_ge.
    all: rewrite Z.eqb_eq; lia.
  - replace (max_count_days st) with (max_count st, max_count_days st).2 by done.
    rewrite E2. apply tracked_earliest; try done; intros; try lia.
    all: try (rewrite Z.gtb_ltb, Z.ltb_ge; lia).
    all: rewrite Z.eqb_eq; lia.
  - replace (min_weight_days st) with (min_weight st, min_weight_days st).2 by done.
    rewrite E3. apply tracked_earliest; try done.
    + intros a b. destruct (Qlt_le_dec a b) as [H|H]; [left; by apply Qlt_le_weak | by right].
    + intros a b c. apply Qle_trans.
    + apply Qlt_bool_false.
    + apply Qeq_bool_le.
  - replace (max_weight_days st) with (max_weight st, max_weight_days st).2 by done.
    rewrite E4. apply tracked_earliest; try done.
    + intros a b. destruct (Qlt_le_dec a b) as [H|H]; [right; by apply Qlt_le_weak | by left].
    + intros a b c H1 H2. eapply Qle_trans; eauto.
    + intros v m. apply Qlt_bool_false.
    + intros v m H. rewrite Qeq_bool_iff. split.
      * intros ->. apply Qle_refl.
      * intros H'. by apply Qle_antisym.
Qed.

Lemma extreme_days_are_earliest_witness :
  let st := scan sample_series in
  (exists d, min_day (min_count_days st) = Some d /\
             earliest_extreme_day Z.le rolls_count sample_series d) /\
  (exists d, min_day (max_count_days st) = Some d /\
             earliest_extreme_day Z.ge rolls_count sample_series d) /\
  (exists d, min_day (min_weight_days st) = Some d /\
             earliest_extreme_day Qle total_weight sample_series d) /\
  (exists d, min_day (max_weight_days st) = Some d /\
             earliest_extreme_day (fun x y => (y <= x)%Q) total_weight
                                  sample_series d).
Proof. apply (extreme_days_are_earliest sample_series). discriminate. Defined.

Example scan_sample_series :
  let st := scan sample_series in
  (min_day (min_count_days st), min_day (max_count_days st),
   min_day (min_weight_days st), min_day (max_weight_days st)) =
  (Some 20001, Some 20000, Some 20001, Some 20000).
Proof. reflexivity. Qed.

(** ** The daily series *)

Lemma Sorted_seqZ (m n : Z) : Sorted Z.le (seqZ m n).
Proof.
  destruct (decide (n <= 0)) as [Hn|Hn]; [rewrite seqZ_nil by done; constructor|].
  rewrite <- (Z2Nat.id n) by lia. generalize (Z.to_nat n) as k. clear.
  intros k. revert m. induction k as [|k IH]; intros m.
  - constructor.
  - rewrite seqZ_cons by lia.
    replace (Z.pred (Z.of_nat (S k))) with (Z.of_nat k) by lia.
    constructor; [apply IH|].
    destruct k as [|k]; [constructor|].
    rewrite seqZ_cons by lia. constructor. lia.
Qed.

Lemma left_join_blocks on series rs :
  left_join on series rs = flat_map (join_block on rs) series.
Proof. reflexivity. Qed.

Lemma join_block_fst on rs d p : p ∈ join_block on rs d -> p.1 = d.
Proof.
  unfold join_block. destruct (sql_where [on d] rs) as [|m ms].
  - by intros ->%list_elem_of_singleton.
  - rewrite list_elem_of_In, in_map_iff. by intros (r & <- & _).
Qed.

Lemma join_block_nonempty on rs d : exists p, p ∈ join_block on rs d.
Proof.
  unfold join_block. destruct (sql_where [on d] rs) as [|m ms]; simpl.
  - exists (d, None). by left.
  - exists (d, Some m). by left.
Qed.

Lemma join_block_rolls on rs d :
  omap snd (join_block on rs d) = sql_where [on d] rs.
Proof.
  unfold join_block. destruct (sql_where [on d] rs) as [|m ms]; [done|].
  generalize (m :: ms). intros l. induction l as [|r l IH]; [done|].
  simpl. f_equal. exact IH.
Qed.

Lemma elem_of_left_join_fst on series rs d :
  d ∈ map fst (left_join on series rs) <-> d ∈ series.
Proof.
  rewrite left_join_blocks, list_elem_of_In, in_map_iff. split.
  - intros (p & <- & Hp). apply in_flat_map in Hp as (d' & Hd' & Hp).
    apply list_elem_of_In in Hp. apply join_block_fst in Hp as ->.
    by apply list_elem_of_In.
  - intros Hd. destruct (join_block_nonempty on rs d) as [p Hp].
    exists p. split; [by apply join_block_fst in Hp|].
    apply in_flat_map. exists d. by rewrite <- !list_elem_of_In.
Qed.

Lemma filter_join_block on rs d d' :
  List.filter (fun p : date * option Roll => p.1 =? d) (join_block on rs d') =
  if decide (d' = d) then join_block on rs d' else [].
Proof.
  pose proof (join_block_fst on rs d') as H.
  induction (join_block on rs d') as [|p l IH]; simpl.
  - by destruct (decide _).
  - rewrite IH by (intros; apply H; by right).
    rewrite (H p) by (by left).
    destruct (decide (d' = d)) as [->|Hne].
    + by rewrite Z.eqb_refl.
    + by replace (d' =? d) with false by lia.
Qed.

Lemma filter_left_join on series rs d :
  NoDup series -> d ∈ series ->
  List.filter (fun p : date * option Roll => p.1 =? d) (left_join on series rs) =
  join_block on rs d.
Proof.
  rewrite left_join_blocks.
  induction series as [|d' series IH]; intros Hnd Hin; simpl.
  - by apply elem_of_nil in Hin.
  - apply NoDup_cons in Hnd as [Hnotin Hnd].
    rewrite List.filter_app, filter_join_block.
    destruct (decide (d' = d)) as [->|Hne].
    + assert (List.filter (fun p : date * option Roll => p.1 =? d)
                (flat_map (join_block on rs) series) = []) as ->;
        [|by rewrite app_nil_r].
      clear -Hnotin. induction series as [|d1 series IH]; simpl; [done|].
      rewrite List.filter_app, filter_join_block.
      destruct (decide (d1 = d)) as [->|_].
      * exfalso. apply Hnotin. by left.
      * apply IH. intros H. apply Hnotin. by right.
    + simpl. apply IH; [done|].
      apply elem_of_cons in Hin as [->|]; done.
Qed.

Lemma group_keys_series on a b rs :
  merge_sort Z.le (remove_dups (map fst (left_join on (generate_series a b) rs))) =
  generate_series a b.
Proof.
  apply (Sorted_unique Z.le).
  - apply (Sorted_merge_sort Z.le).
  - apply Sorted_seqZ.
  - rewrite merge_sort_Permutation.
    apply NoDup_Permutation.
    + apply NoDup_remove_dups.
    + apply NoDup_seqZ.
    + intros d. rewrite elem_of_remove_dups. apply elem_of_left_join_fst.
Qed.

Lemma on_day_present ds d r :
  sql_is_true (sql_all [on_day ds d r]) = present_on ds d r.
Proof.
  unfold on_day, present_on, col_ge, col_is_none, Roll_removed_date. simpl.
  destruct (added_date r <? ds (d + 1)), (removed_date r) as [t|]; simpl; try done.
  by destruct (ds d <=? t).
Qed.

Lemma sql_where_on_day ds d rs :
  sql_where [on_day ds d] rs = List.filter (present_on ds d) rs.
Proof.
  unfold sql_where. apply List.filter_ext. intros r. apply on_day_present.
Qed.

(** The rows of the series, one by one. *)
Lemma daily_series_rows ds a b rs :
  daily_series_sql ds a b rs =
  map (fun d =>
         let present := List.filter (present_on ds d) rs in
         mkDayRow d (Z.of_nat (List.length present)) (Qsum (map weight present)))
      (generate_series a b).
Proof.
  unfold daily_series_sql, group_by_day. rewrite group_keys_series.
  apply map_ext_in. intros d Hd%list_elem_of_In.
  unfold select_group.
  rewrite filter_left_join by (done || apply NoDup_seqZ).
  rewrite join_block_rolls, sql_where_on_day.
  unfold sql_count. rewrite List.length_map. f_equal.
  by destruct (List.filter (present_on ds d) rs).
Qed.




(** ** Dwell intervals *)

Section fold_pick.
Context {A : Type} (pick : A -> A -> A) (le : A -> A -> Prop).
Hypothesis le_refl : forall a, le a a.
Hypothesis le_trans : forall a b c, le a b -> le b c -> le a c.
Hypothesis pick_cases : forall a b, pick a b = a \/ pick a b = b.
Hypothesis pick_l : forall a b, le (pick a b) a.
Hypothesis pick_r : forall a b, le (pick a b) b.

Lemma fold_pick_extreme (xs : list A) (x : A) :
  fold_left pick xs x ∈ x :: xs /\
  forall y, y ∈ x :: xs -> le (fold_left pick xs x) y.
Proof.
  revert x. induction xs as [|x1 xs IH]; intros x; simpl.
  - split; [by left|]. by intros y ->%list_elem_of_singleton.
  - destruct (IH (pick x x1)) as [Hin Hle]. split.
    + apply elem_of_cons in Hin as [->|Hin].
      * destruct (pick_cases x x1) as [->| ->]; [by left | right; by left].
      * right. by right.
    + intros y Hy.
      assert (le (fold_left pick xs (pick x x1)) (pick x x1)) by (apply Hle; by left).
      apply elem_of_cons in Hy as [->|Hy]; [by eapply le_trans|].
      apply elem_of_cons in Hy as [->|Hy]; [by eapply le_trans|].
      apply Hle. by right.
Qed.
End fold_pick.

Lemma epoch_days_zero (i : Z) : Qeq_bool (epoch_days i) 0 = (i =? 0).
Proof.
  unfold epoch_days, Qeq_bool, Qdiv, Qmult, Qinv. simpl.
  rewrite !Z.mul_1_r. reflexivity.
Qed.

(** The rolls over which [interval_query] aggregates. *)
Lemma removed_presence_dwell s e rs r :
  r ∈ sql_where [col_isnot_none Roll_removed_date; presence_condition s e] rs ->
  exists t, removed_date r = Some t /\ dwell r = Some (t - added_date r).
Proof.
  rewrite elem_of_sql_where, !Forall_cons. intros (_ & H & _).
  unfold col_isnot_none, Roll_removed_date, dwell in *.
  destruct (removed_date r) as [t|]; [by exists t | done].
Qed.

(** What the code reports as [max_interval] and [min_interval]: the
    greatest and the least dwell of the removed rolls of the presence set,
    in days rounded to two decimals, and nothing when there is no such
    roll or when that dwell is zero. *)
Lemma intervals_reported ds rs s e :
  let removed :=
    sql_where [col_isnot_none Roll_removed_date; presence_condition s e] rs in
  let resp := statistics_on ds rs s e in
  match sql_extremum Z.max (omap dwell removed) with
  | None => removed = [] /\ StatisticsResponse.max_interval resp = None
  | Some m =>
      (exists r, r ∈ removed /\ dwell r = Some m) /\
      (forall r i, r ∈ removed -> dwell r = Some i -> i <= m) /\
      StatisticsResponse.max_interval resp =
        if m =? 0 then None else Some (round2 (epoch_days m))
  end /\
  match sql_extremum Z.min (omap dwell removed) with
  | None => removed = [] /\ StatisticsResponse.min_interval resp = None
  | Some m =>
      (exists r, r ∈ removed /\ dwell r = Some m) /\
      (forall r i, r ∈ removed -> dwell r = Some i -> m <= i) /\
      StatisticsResponse.min_interval resp =
        if m =? 0 then None else Some (round2 (epoch_days m))
  end.
Proof.
  intros removed resp.
  assert (forall r, r ∈ removed -> is_Some (dwell r)) as Hsome.
  { intros r Hr. apply removed_presence_dwell in Hr as (t & _ & ->). eauto. }
  unfold resp, statistics_on, rounded_interval, interval_row. simpl.
  fold removed. clearbody removed. clear resp.
  destruct (omap dwell removed) as [|i0 ivs] eqn:E; simpl.
  - assert (removed = []) as ->.
    { destruct removed as [|r l]; [done|]. simpl in E.
      destruct (Hsome r) as [i Hi]; [by left|]. by rewrite Hi in E. }
    done.
  - assert (forall i, i ∈ i0 :: ivs <-> exists r, r ∈ removed /\ dwell r = Some i) as Hel.
    { intros i. rewrite <- E, list_elem_of_omap. done. }
    rewrite !epoch_days_zero.
    split.
    + destruct (fold_pick_extreme Z.max Z.ge) with (xs := ivs) (x := i0)
        as [Hin Hle]; try (intros; lia).
      split; [by apply Hel|]. split.
      * intros r i Hr Hi. apply Z.ge_le, Hle, Hel. eauto.
      * by destruct (fold_left Z.max ivs i0 =? 0).
    + destruct (fold_pick_extreme Z.min Z.le) with (xs := ivs) (x := i0)
        as [Hin Hle]; try (intros; lia).
      split; [by apply Hel|]. split.
      * intros r i Hr Hi. apply Hle, Hel. eauto.
      * by destruct (fold_left Z.min ivs i0 =? 0).
Qed.

(** C5 (as the code behaves): when the removed rolls of the presence set
    all left in the very second they came in, [max_interval] and
    [min_interval] are reported as null although such rolls exist: the
    handler tests the number for truth, and zero is false. *)
Theorem zero_dwell_reports_no_interval (ds : date -> datetime)
    (rs : list Roll) (s e : datetime) :
  let removed :=
    sql_where [col_isnot_none Roll_removed_date; presence_condition s e] rs in
  removed <> [] ->
  (forall r, r ∈ removed -> removed_date r = Some (added_date r)) ->
  StatisticsResponse.max_interval (statistics_on ds rs s e) = None /\
  StatisticsResponse.min_interval (statistics_on ds rs s e) = None.
Proof.
  intros removed Hne Hzero.
  destruct (intervals_reported ds rs s e) as [Hmax Hmin].
  fold removed in Hmax, Hmin.
  assert (forall r i, r ∈ removed -> dwell r = Some i -> i = 0) as Hd.
  { intros r i Hr. unfold dwell. rewrite (Hzero r Hr). intros [= <-]. lia. }
  split.
  - destruct (sql_extremum Z.max (omap dwell removed)) as [m|].
    + destruct Hmax as ((r & Hr & Hm) & _ & ->).
      by rewrite (Hd r m Hr Hm).
    + by destruct Hmax.
  - destruct (sql_extremum Z.min (omap dwell removed)) as [m|].
    + destruct Hmin as ((r & Hr & Hm) & _ & ->).
      by rewrite (Hd r m Hr Hm).
    + by destruct Hmin.
Qed.

Lemma zero_dwell_reports_no_interval_witness :
  StatisticsResponse.max_interval
    (statistics_on utc_midnight instant_rolls 0 (utc_midnight 1)) = None /\
  StatisticsResponse.min_interval
    (statistics_on utc_midnight instant_rolls 0 (utc_midnight 1)) = None.
Proof.
  apply (zero_dwell_reports_no_interval utc_midnight instant_rolls 0 (utc_midnight 1)).
  - discriminate.
  - intros r Hr. vm_compute in Hr.
    apply list_elem_of_singleton in Hr as ->. reflexivity.
Defined.

(** The handler itself on that table, with a database that answers. *)
Example get_statistics_instant_rolls :
  exists resp w',
    get_statistics 0 (utc_midnight 1) (world_of instant_rolls 2 0 []) = (Ok resp, w') /\
    StatisticsResponse.removed_count resp = 1 /\
    StatisticsResponse.max_interval resp = None /\
    StatisticsResponse.min_interval resp = None.
Proof. do 2 eexists. split; [reflexivity|]. done. Qed.

(** ** The configuration loader *)


Lemma getenv_set environ key v default :
  environ !! key = Some v -> Config.getenv environ key default = v.
Proof. unfold Config.getenv. by intros ->. Qed.

(** C7 (as the code behaves): the file's value is looked up before the
    environment is consulted, so the loader fails as soon as the file
    lacks one of the four options, whatever the environment holds. *)
Theorem get_db_config_needs_file (environ : gmap string string)
    (file : option Config.ConfigParser) (key : string) :
  key ∈ Config.keys ->
  (exists err, Config.get (Config.read file) "database" key = inl err) ->
  exists err, Config.get_db_config environ file = inl err.
Proof.
  intros Hkey [err Herr]. unfold Config.get_db_config, Config.entry.
  unfold Config.keys in Hkey.
  repeat (apply elem_of_cons in Hkey as [->|Hkey]); [..|by apply elem_of_nil in Hkey].
  - rewrite Herr. eauto.
  - destruct (Config.get _ _ "DB_HOST"); [eauto|]. rewrite Herr. eauto.
  - destruct (Config.get _ _ "DB_HOST"); [eauto|].
    destruct (Config.get _ _ "DB_NAME"); [eauto|]. rewrite Herr. eauto.
  - destruct (Config.get _ _ "DB_HOST"); [eauto|].
    destruct (Config.get _ _ "DB_NAME"); [eauto|].
    destruct (Config.get _ _ "DB_USER"); [eauto|]. rewrite Herr. eauto.
Qed.

Lemma get_db_config_needs_file_witness :
  (forall key, key ∈ Config.keys -> is_Some (Config.full_environ !! key)) /\
  exists err, Config.get_db_config Config.full_environ None = inl err.
Proof.
  split.
  - intros key Hkey. unfold Config.keys in Hkey.
    repeat (apply elem_of_cons in Hkey as [->|Hkey]);
      [..|by apply elem_of_nil in Hkey]; vm_compute; eauto.
  - apply (get_db_config_needs_file Config.full_environ None "DB_HOST").
    + by left.
    + eexists. reflexivity.
Defined.

Example get_db_config_environment_only :
  Config.get_db_config Config.full_environ None =
  inl (Config.NoSectionError "database").
Proof. reflexivity. Qed.

Example get_db_config_environment_first :
  Config.get_db_config Config.full_environ (Some Config.full_file) =
  inr (Config.mkDbConfig "db" "rolls" "postgres" "secret").
Proof. reflexivity. Qed.

Example get_db_config_file_fallback :
  Config.get_db_config ∅ (Some Config.full_file) =
  inr (Config.mkDbConfig "localhost" "warehouse" "user" "pw").
Proof. reflexivity. Qed.

(** ** What the writing handlers do to the table *)

Ltac run_handler :=
  repeat (simpl;
    match goal with
    | |- context [match ?fs with [] => _ | _ :: _ => _ end] =>
        is_var fs; destruct fs as [|[] fs]
    | |- context [match find_roll ?i ?l with Some _ => _ | None => _ end] =>
        destruct (find_roll i l) eqn:?
    | |- context [match removed_date ?r with Some _ => _ | None => _ end] =>
        destruct (removed_date r) eqn:?
    | |- context [if ?b then _ else _] => destruct b eqn:?
    end).

(** [create_roll] leaves the table as it was or appends one row, whose id
    is the next value of the sequence and was not in use. *)
Lemma create_roll_table roll w :
  session w = [] ->
  rolls (create_roll roll w).2 = rolls w \/
  (find_roll (rolls_id_seq w) (rolls w) = None /\
   rolls (create_roll roll w).2 =
     rolls w ++ [mkRoll (rolls_id_seq w) (rc_length roll) (rc_weight roll)
                        (replace_microsecond_0 (clock w)) None]).
Proof.
  destruct w as [rs sq se cl ds fs tr]; simpl. intros ->.
  unfold create_roll, try_except, bind, db_add, db_commit, db_refresh,
    except_with_rollback, db_rollback, bind, roundtrip, get_utc_time, raise.
  run_handler; auto.
Qed.

(** [delete_roll] leaves the table as it was or stamps the rows of the
    given id, which it found with no [removed_date]. *)
Lemma delete_roll_table roll_id w :
  session w = [] ->
  rolls (delete_roll roll_id w).2 = rolls w \/
  (exists r0, find_roll roll_id (rolls w) = Some r0 /\ removed_date r0 = None /\
   rolls (delete_roll roll_id w).2 =
     update_removed roll_id (replace_microsecond_0 (clock w)) (rolls w)).
Proof.
  destruct w as [rs sq se cl ds fs tr]; simpl. intros ->.
  unfold delete_roll, try_except, bind, db_get, set_removed_date, db_commit,
    db_refresh, except_with_rollback, db_rollback, bind, roundtrip,
    get_utc_time, raise.
  run_handler; eauto.
Qed.

Lemma find_roll_Some i rs r : find_roll i rs = Some r -> r ∈ rs /\ id r = i.
Proof.
  unfold find_roll. intros H. apply find_some in H as [Hin Hid].
  split; [by apply list_elem_of_In | lia].
Qed.

Lemma find_roll_None i rs : find_roll i rs = None -> i ∉ map id rs.
Proof.
  unfold find_roll. intros H Hin.
  apply list_elem_of_In, in_map_iff in Hin as (r & Hid & Hr).
  pose proof (find_none _ _ H r Hr) as Hn. simpl in Hn. lia.
Qed.

Lemma primary_key_unique rs r1 r2 :
  NoDup (map id rs) -> r1 ∈ rs -> r2 ∈ rs -> id r1 = id r2 -> r1 = r2.
Proof.
  induction rs as [|r rs IH]; simpl; intros Hnd H1 H2 Hid.
  - by apply elem_of_nil in H1.
  - apply NoDup_cons in Hnd as [Hr Hnd].
    apply elem_of_cons in H1 as [->|H1], H2 as [->|H2]; auto.
    + exfalso. apply Hr. rewrite Hid, list_elem_of_In. apply in_map.
      by apply list_elem_of_In.
    + exfalso. apply Hr. rewrite <- Hid, list_elem_of_In. apply in_map.
      by apply list_elem_of_In.
Qed.

Lemma update_removed_ids i t rs : map id (update_removed i t rs) = map id rs.
Proof.
  unfold update_removed. rewrite List.map_map. apply map_ext.
  intros r. by destruct (id r =? i).
Qed.

Lemma update_removed_other i t rs r :
  r ∈ rs -> id r <> i -> r ∈ update_removed i t rs.
Proof.
  intros Hr Hid. unfold update_removed. rewrite list_elem_of_In, in_map_iff.
  exists r. split; [|by apply list_elem_of_In].
  by replace (id r =? i) with false by lia.
Qed.

(** One request: the primary key survives, and so does every row that
    already has a [removed_date]. *)
Lemma serve_keeps_removed req w :
  primary_key w ->
  primary_key (serve req w).2 /\
  forall r, r ∈ rolls w -> removed_date r <> None -> r ∈ rolls (serve req w).2.
Proof.
  unfold primary_key. intros Hpk.
  assert (forall A (m : M A),
            rolls (get_db m w).2 = rolls (m (set_session [] w)).2) as Hdb.
  { intros A m. unfold get_db. by destruct (m (set_session [] w)). }
  assert (forall A (f : A -> Payload) (m : M A) w0,
            rolls (payload f m w0).2 = rolls (m w0).2) as Hpay.
  { intros A f m w0. unfold payload, bind, ret. by destruct (m w0) as [[a|e] w1]. }
  destruct req as [roll|roll_id|q|s e]; unfold serve; rewrite Hdb, Hpay.
  - destruct (create_roll_table roll (set_session [] w) eq_refl) as [->|[Hnone ->]];
      simpl in *; [done|].
    split.
    + rewrite List.map_app. simpl. apply NoDup_app. split; [done|]. split.
      * intros i Hi ->%list_elem_of_singleton. by apply find_roll_None in Hnone.
      * apply NoDup_singleton.
    + intros r Hr _. apply elem_of_app. by left.
  - destruct (delete_roll_table roll_id (set_session [] w) eq_refl)
      as [->|(r0 & Hfind & Hnull & ->)]; simpl in *; [done|].
    split; [by rewrite update_removed_ids|].
    intros r Hr Hrem. apply update_removed_other; [done|].
    intros Hid. apply find_roll_Some in Hfind as [Hr0 Hid0].
    assert (r = r0) as -> by (apply (primary_key_unique (rolls w)); congruence).
    congruence.
  - destruct (keeps_get_rolls q (set_session [] w)) as [-> _]. done.
  - destruct (keeps_get_statistics s e (set_session [] w)) as [-> _]. done.
Qed.

(** C8: along any life of the service (creations, deletions, listings,
    statistics, served or failed, with time passing and database faults
    in between) a row that has a [removed_date] stays in the table exactly
    as it is: the date is never changed and never unset. *)
Theorem removed_date_is_final (events : list Event) (w : World) (r : Roll) :
  primary_key w ->
  r ∈ rolls w -> removed_date r <> None ->
  r ∈ rolls (run events w).
Proof.
  unfold run. revert w.
  induction events as [|ev events IH]; intros w Hpk Hr Hrem; simpl; [done|].
  destruct ev as [req|now|fs]; simpl.
  - destruct (serve_keeps_removed req w Hpk) as [Hpk' Hkeep].
    apply IH; auto.
  - by apply IH.
  - by apply IH.
Qed.

Lemma removed_date_is_final_witness :
  mkRoll 1 10 5 (utc_midnight sample_day + 3600 * MICROSECOND_PER_SECOND)
         (Some (utc_midnight (sample_day + 1) + 3600 * MICROSECOND_PER_SECOND))
    ∈ rolls (run sample_events sample_world).
Proof.
  apply (removed_date_is_final sample_events sample_world).
  - unfold primary_key. simpl. apply NoDup_cons. split.
    + intros H%list_elem_of_singleton. discriminate H.
    + apply NoDup_singleton.
  - by left.
  - discriminate.
Defined.

Example run_sample_events :
  map (fun r => (id r, removed_date r)) (rolls (run sample_events sample_world)) =
  [ (1, Some (utc_midnight (sample_day + 1) + 3600 * MICROSECOND_PER_SECOND));
    (2, Some (utc_midnight (sample_day + 3)));
    (3, None) ].
Proof. reflexivity. Qed.

(** * Further properties of the handlers *)

(** ** The clock *)

(** X21: the stamp that [get_utc_time] gives (and that [delete_roll]
    computes in the same way) is a whole number of seconds, not later than
    the clock and less than a second before it; truncating again changes
    nothing. *)
Theorem get_utc_time_truncates (w : World) :
  exists t, get_utc_time w = (Ok t, w) /\
    t mod MICROSECOND_PER_SECOND = 0 /\
    clock w - MICROSECOND_PER_SECOND < t <= clock w /\
    replace_microsecond_0 t = t.
Proof.
  exists (replace_microsecond_0 (clock w)). split; [done|].
  unfold replace_microsecond_0, MICROSECOND_PER_SECOND.
  pose proof (Z.mod_pos_bound (clock w) 1000000 ltac:(lia)) as Hb.
  pose proof (Z.div_mod (clock w) 1000000 ltac:(lia)) as Hd.
  assert ((clock w - clock w mod 1000000) mod 1000000 = 0) as H0.
  { replace (clock w - clock w mod 1000000) with (clock w / 1000000 * 1000000) by lia.
    apply Z.mod_mul. lia. }
  repeat split; lia.
Qed.

(** ** Creating *)

Lemma find_roll_app_new rs new :
  find_roll (id new) rs = None -> find_roll (id new) (rs ++ [new]) = Some new.
Proof.
  unfold find_roll. induction rs as [|r rs IH]; simpl.
  - by rewrite Z.eqb_refl.
  - destruct (id r =? id new); [done | apply IH].
Qed.

Lemma create_roll_runs roll w :
  (0 < rc_length roll)%Q -> (0 < rc_weight roll)%Q ->
  session w = [] -> faults w = [] ->
  find_roll (rolls_id_seq w) (rolls w) = None ->
  create_roll roll w =
  (Ok (new_roll roll w),
   mkWorld (rolls w ++ [new_roll roll w]) (rolls_id_seq w + 1) [] (clock w)
           (day_start w) []
           (trace w ++ [ActAdd; ActCommit; ActRefresh (rolls_id_seq w)])).
Proof.
  intros Hl Hw Hs Hf Hfree.
  destruct w as [rs sq se cl ds fs tr]; simpl in *. subst se fs.
  unfold create_roll, try_except.
  assert (Qle_bool (rc_length roll) 0 || Qle_bool (rc_weight roll) 0 = false) as ->.
  { apply orb_false_iff. split; apply not_true_is_false;
      rewrite Qle_bool_iff; by apply Qlt_not_le. }
  unfold bind, db_add, db_commit, db_refresh, bind, roundtrip, get_utc_time,
    new_roll. simpl. rewrite Hfree. simpl.
  pose proof (find_roll_app_new rs
    (mkRoll sq (rc_length roll) (rc_weight roll) (replace_microsecond_0 cl) None)
    Hfree) as Hnew. simpl in Hnew. rewrite Hnew.
  unfold log, set_session, set_seq, set_rolls; simpl.
  by rewrite <- !app_assoc.
Qed.

(** X1: a create request with positive length and weight, on a database
    that answers and whose next sequence value is free, returns the stored
    record: the id is the sequence value, length and weight are the
    request's, [added_date] is the clock cut to whole seconds and
    [removed_date] is null; the table gains exactly that row at its end,
    and the sequence moves on by one. *)
Theorem create_roll_stores_the_roll (roll : RollCreate) (w : World) :
  (0 < rc_length roll)%Q -> (0 < rc_weight roll)%Q ->
  session w = [] -> faults w = [] ->
  find_roll (rolls_id_seq w) (rolls w) = None ->
  exists r w',
    create_roll roll w = (Ok r, w') /\
    id r = rolls_id_seq w /\
    length r = rc_length roll /\ weight r = rc_weight roll /\
    added_date r = replace_microsecond_0 (clock w) /\
    removed_date r = None /\
    rolls w' = rolls w ++ [r] /\
    rolls_id_seq w' = rolls_id_seq w + 1 /\
    find_roll (id r) (rolls w') = Some r.
Proof.
  intros Hl Hw Hs Hf Hfree.
  exists (new_roll roll w). eexists.
  split; [by apply create_roll_runs|]. simpl.
  repeat split. by apply (find_roll_app_new (rolls w) (new_roll roll w)).
Qed.

Lemma create_roll_stores_the_roll_witness :
  exists r w',
    create_roll (mkRollCreate 3 4) sample_world = (Ok r, w') /\
    id r = 3 /\ length r = 3%Q /\ weight r = 4%Q /\
    added_date r = replace_microsecond_0 (clock sample_world) /\
    removed_date r = None /\
    rolls w' = rolls sample_world ++ [r] /\
    rolls_id_seq w' = 3 + 1 /\
    find_roll (id r) (rolls w') = Some r.
Proof.
  apply (create_roll_stores_the_roll (mkRollCreate 3 4) sample_world);
    reflexivity.
Defined.



(** X3: when the commit of a valid create request goes through but the
    reload of the new row fails, the client is told of a server error
    although the row is in the table. *)
Theorem create_roll_refresh_fault (roll : RollCreate) (w : World) (fs : list bool) :
  (0 < rc_length roll)%Q -> (0 < rc_weight roll)%Q ->
  session w = [] -> faults w = false :: true :: fs -> hd false fs = false ->
  find_roll (rolls_id_seq w) (rolls w) = None ->
  exists w',
    create_roll roll w =
      (Raise (HTTPException 500 "Database error: OperationalError"), w') /\
    rolls w' = rolls w ++ [new_roll roll w].
Proof.
  intros Hl Hw Hs Hf Hfs Hfree.
  destruct w as [rs sq se cl ds fs0 tr]; simpl in *. subst se fs0.
  unfold create_roll, try_except.
  assert (Qle_bool (rc_length roll) 0 || Qle_bool (rc_weight roll) 0 = false) as ->.
  { apply orb_false_iff. split; apply not_true_is_false;
      rewrite Qle_bool_iff; by apply Qlt_not_le. }
  unfold bind, db_add, db_commit, db_refresh, bind, roundtrip, get_utc_time,
    except_with_rollback, db_rollback, bind, roundtrip, raise, new_roll.
  simpl. rewrite Hfree. simpl.
  destruct fs as [|[] fs]; simpl in *; try discriminate;
    eexists; (split; [reflexivity|]); done.
Qed.

Lemma create_roll_refresh_fault_witness :
  exists w',
    create_roll (mkRollCreate 3 4) (world_of sample_rolls 3 0 [false; true]) =
      (Raise (HTTPException 500 "Database error: OperationalError"), w') /\
    rolls w' = sample_rolls ++
               [new_roll (mkRollCreate 3 4) (world_of sample_rolls 3 0 [false; true])].
Proof.
  apply (create_roll_refresh_fault (mkRollCreate 3 4)
           (world_of sample_rolls 3 0 [false; true]) []); reflexivity.
Defined.

(** ** Deleting *)

Lemma find_roll_update_removed i t rs :
  find_roll i (update_removed i t rs) = stamped t <$> find_roll i rs.
Proof.
  unfold find_roll, update_removed. induction rs as [|r rs IH]; simpl; [done|].
  destruct (id r =? i) eqn:E; simpl; rewrite E; [done | apply IH].
Qed.

Lemma delete_roll_runs roll_id w r :
  session w = [] -> faults w = [] ->
  find_roll roll_id (rolls w) = Some r -> removed_date r = None ->
  delete_roll roll_id w =
  (Ok (stamped (replace_microsecond_0 (clock w)) r),
   mkWorld (update_removed roll_id (replace_microsecond_0 (clock w)) (rolls w))
           (rolls_id_seq w) [] (clock w) (day_start w) []
           (trace w ++ [ActGet roll_id; ActSetRemoved roll_id; ActCommit;
                        ActRefresh roll_id])).
Proof.
  intros Hs Hf Hfind Hnull.
  destruct w as [rs sq se cl ds fs tr]; simpl in *. subst se fs.
  unfold delete_roll, try_except, bind, db_get, set_removed_date, db_commit,
    db_refresh, bind, roundtrip, get_utc_time. simpl.
  rewrite Hfind, Hnull. simpl.
  rewrite find_roll_update_removed, Hfind. simpl.
  unfold log, set_session, set_seq, set_rolls; simpl.
  by rewrite <- !app_assoc.
Qed.



(** X5: once a roll has been deleted, deleting it again (at any later
    time, in any session) is refused with the "already removed" message
    and leaves the table as the first deletion left it. *)
Theorem delete_roll_twice (roll_id : Z) (w w2 : World) (r : Roll) :
  session w = [] -> faults w = [] ->
  find_roll roll_id (rolls w) = Some r -> removed_date r = None ->
  rolls w2 = rolls (delete_roll roll_id w).2 ->
  hd false (faults w2) = false ->
  (delete_roll roll_id w2).1 =
    Raise (HTTPException 500 "Unexpected error: 400: Roll already removed") /\
  rolls (delete_roll roll_id w2).2 = rolls (delete_roll roll_id w).2.
Proof.
  intros Hs Hf Hfind Hnull Hw2 Hf2.
  rewrite (delete_roll_runs roll_id w r Hs Hf Hfind Hnull) in *. simpl in *.
  assert (find_roll roll_id (rolls w2) =
          Some (stamped (replace_microsecond_0 (clock w)) r)) as Hfind2.
  { by rewrite Hw2, find_roll_update_removed, Hfind. }
  unfold delete_roll, try_except, db_get, bind.
  rewrite (roundtrip_no_fault _ _ Hf2). simpl.
  rewrite Hfind2. simpl. done.
Qed.

Lemma delete_roll_twice_witness :
  (delete_roll 2 (delete_roll 2 sample_world).2).1 =
    Raise (HTTPException 500 "Unexpected error: 400: Roll already removed") /\
  rolls (delete_roll 2 (delete_roll 2 sample_world).2).2 =
    rolls (delete_roll 2 sample_world).2.
Proof.
  apply (delete_roll_twice 2 sample_world (delete_roll 2 sample_world).2
           (mkRoll 2 20 15
              (utc_midnight sample_day + 3600 * MICROSECOND_PER_SECOND) None));
    reflexivity.
Defined.

(** ** The status of a failure *)

Lemma try_except_with_rollback_status {A} (m : M A) w e w' :
  try_except m except_with_rollback w = (Raise e, w') -> response_status e = 500.
Proof.
  unfold try_except. destruct (m w) as [[a|e0] w1]; [discriminate|].
  destruct e0 as [s d|msg]; simpl.
  - by intros [= <- _].
  - unfold bind, db_rollback, bind, roundtrip, raise.
    destruct w1 as [rs sq se cl ds fs tr]; simpl.
    destruct fs as [|[] fs]; simpl; by intros [= <- _].
Qed.

Lemma try_except_plain_status {A} (m : M A) w e w' :
  try_except m except_plain w = (Raise e, w') -> response_status e = 500.
Proof.
  unfold try_except. destruct (m w) as [[a|e0] w1]; [discriminate|].
  destruct e0 as [s d|msg]; simpl; by intros [= <- _].
Qed.

(** X6: whatever the request and the state of the database, a request
    that fails is answered with status 500: neither 400 nor 404 ever
    leaves a handler. *)
Theorem serve_fails_with_500 (req : Request) (w w' : World) (e : exn) :
  serve req w = (Raise e, w') -> response_status e = 500.
Proof.
  unfold serve, get_db, payload, bind.
  destruct req as [roll|roll_id|q|s t].
  - destruct (create_roll roll (set_session [] w)) as [[a|e0] w1] eqn:E;
      [discriminate|]. intros [= <- _].
    by apply try_except_with_rollback_status in E.
  - destruct (delete_roll roll_id (set_session [] w)) as [[a|e0] w1] eqn:E;
      [discriminate|]. intros [= <- _].
    by apply try_except_with_rollback_status in E.
  - destruct (get_rolls q (set_session [] w)) as [[a|e0] w1] eqn:E;
      [discriminate|]. intros [= <- _].
    by apply try_except_plain_status in E.
  - destruct (get_statistics s t (set_session [] w)) as [[a|e0] w1] eqn:E;
      [discriminate|]. intros [= <- _].
    by apply try_except_plain_status in E.
Qed.

Lemma serve_fails_with_500_witness :
  response_status
    (HTTPException 500 "Unexpected error: 404: Roll not found") = 500.
Proof.
  apply (serve_fails_with_500 (DeleteRoll 7) sample_world
           (serve (DeleteRoll 7) sample_world).2).
  reflexivity.
Defined.

(** ** Invariants of the table along the life of the service *)

Lemma create_roll_effect roll w :
  session w = [] ->
  (rolls (create_roll roll w).2 = rolls w /\
   rolls_id_seq w <= rolls_id_seq (create_roll roll w).2) \/
  (find_roll (rolls_id_seq w) (rolls w) = None /\
   rolls (create_roll roll w).2 = rolls w ++ [new_roll roll w] /\
   rolls_id_seq (create_roll roll w).2 = rolls_id_seq w + 1).
Proof.
  destruct w as [rs sq se cl ds fs tr]; simpl. intros ->.
  unfold create_roll, try_except, bind, db_add, db_commit, db_refresh,
    except_with_rollback, db_rollback, bind, roundtrip, get_utc_time, raise,
    new_roll.
  run_handler;
    solve [ left; split; [reflexivity | simpl; lia]
          | right; repeat split; auto ].
Qed.

Lemma delete_roll_seq roll_id w :
  session w = [] ->
  rolls_id_seq (delete_roll roll_id w).2 = rolls_id_seq w.
Proof.
  destruct w as [rs sq se cl ds fs tr]; simpl. intros ->.
  unfold delete_roll, try_except, bind, db_get, set_removed_date, db_commit,
    db_refresh, except_with_rollback, db_rollback, bind, roundtrip,
    get_utc_time, raise.
  run_handler; auto.
Qed.

Lemma serve_rolls req w :
  rolls (serve req w).2 =
  match req with
  | CreateRoll roll => rolls (create_roll roll (set_session [] w)).2
  | DeleteRoll roll_id => rolls (delete_roll roll_id (set_session [] w)).2
  | _ => rolls w
  end.
Proof.
  unfold serve, get_db, payload, bind, ret.
  destruct req as [roll|roll_id|q|s e].
  - by destruct (create_roll roll (set_session [] w)) as [[a|e0] w1].
  - by destruct (delete_roll roll_id (set_session [] w)) as [[a|e0] w1].
  - pose proof (keeps_get_rolls q (set_session [] w)) as [H _].
    by destruct (get_rolls q (set_session [] w)) as [[a|e0] w1].
  - pose proof (keeps_get_statistics s e (set_session [] w)) as [H _].
    by destruct (get_statistics s e (set_session [] w)) as [[a|e0] w1].
Qed.

Lemma serve_seq req w :
  rolls_id_seq (serve req w).2 =
  match req with
  | CreateRoll roll => rolls_id_seq (create_roll roll (set_session [] w)).2
  | _ => rolls_id_seq w
  end.
Proof.
  unfold serve, get_db, payload, bind, ret.
  destruct req as [roll|roll_id|q|s e].
  - by destruct (create_roll roll (set_session [] w)) as [[a|e0] w1].
  - pose proof (delete_roll_seq roll_id (set_session [] w) eq_refl) as H.
    by destruct (delete_roll roll_id (set_session [] w)) as [[a|e0] w1].
  - pose proof (keeps_get_rolls q (set_session [] w)) as (_ & H & _).
    by destruct (get_rolls q (set_session [] w)) as [[a|e0] w1].
  - pose proof (keeps_get_statistics s e (set_session [] w)) as (_ & H & _).
    by destruct (get_statistics s e (set_session [] w)) as [[a|e0] w1].
Qed.

Lemma ids_below_seq_free w :
  ids_below_seq w -> find_roll (rolls_id_seq w) (rolls w) = None.
Proof.
  unfold ids_below_seq. intros Hb.
  destruct (find_roll _ _) as [r|] eqn:E; [|done].
  apply find_roll_Some in E as [Hr Hid].
  rewrite Forall_forall in Hb. specialize (Hb r Hr). lia.
Qed.

Lemma step_keeps_keys ev w :
  primary_key w /\ ids_below_seq w ->
  (primary_key (step w ev) /\ ids_below_seq (step w ev)) /\
  rolls_id_seq w <= rolls_id_seq (step w ev).
Proof.
  unfold primary_key, ids_below_seq. intros [Hpk Hb].
  destruct ev as [req|now|fs]; simpl; [|split; [done | lia] ..].
  rewrite serve_rolls, serve_seq.
  destruct req as [roll|roll_id|q|s e]; [| |split; [done | lia] ..].
  - destruct (create_roll_effect roll (set_session [] w) eq_refl)
      as [[-> Hle]|(Hfree & -> & ->)]; simpl in *.
    + split; [|done]. split; [done|].
      eapply Forall_impl; [exact Hb|]. simpl. intros; lia.
    + split; [|lia]. split.
      * rewrite List.map_app. simpl. apply NoDup_app. split; [done|]. split.
        -- intros i Hi ->%list_elem_of_singleton. by apply find_roll_None in Hfree.
        -- apply NoDup_singleton.
      * apply Forall_app. split.
        -- eapply Forall_impl; [exact Hb|]. simpl. intros; lia.
        -- apply Forall_singleton. simpl. lia.
  - split; [|lia].
    destruct (delete_roll_table roll_id (set_session [] w) eq_refl)
      as [->|(r0 & _ & _ & ->)]; simpl in *; [done|].
    split; [by rewrite update_removed_ids|].
    unfold update_removed. apply Forall_fmap. eapply Forall_impl; [exact Hb|].
    simpl. intros r Hr. by destruct (id r =? roll_id).
Qed.

(** X7: a table whose ids are pairwise distinct and all below the
    sequence stays so along any life of the service, and the sequence
    never goes back; so the next sequence value is always free and no
    create request is ever refused for a duplicate key. *)
Theorem keys_stay_sound (events : list Event) (w : World) :
  primary_key w -> ids_below_seq w ->
  primary_key (run events w) /\ ids_below_seq (run events w) /\
  rolls_id_seq w <= rolls_id_seq (run events w) /\
  find_roll (rolls_id_seq (run events w)) (rolls (run events w)) = None.
Proof.
  intros Hpk Hb.
  assert ((primary_key (run events w) /\ ids_below_seq (run events w)) /\
          rolls_id_seq w <= rolls_id_seq (run events w)) as [[H1 H2] H3].
  { unfold run. revert w Hpk Hb.
    induction events as [|ev events IH]; intros w Hpk Hb; simpl.
    - split; [done | lia].
    - destruct (step_keeps_keys ev w (conj Hpk Hb)) as [[Hpk' Hb'] Hle].
      destruct (IH (step w ev) Hpk' Hb') as [HH Hle']. split; [done | lia]. }
  repeat split; try done. by apply ids_below_seq_free.
Qed.

Lemma keys_stay_sound_witness :
  primary_key (run sample_events sample_world) /\
  ids_below_seq (run sample_events sample_world) /\
  rolls_id_seq sample_world <= rolls_id_seq (run sample_events sample_world) /\
  find_roll (rolls_id_seq (run sample_events sample_world))
            (rolls (run sample_events sample_world)) = None.
Proof.
  apply (keys_stay_sound sample_events sample_world).
  - unfold primary_key. simpl. apply NoDup_cons. split.
    + intros H%list_elem_of_singleton. discriminate H.
    + apply NoDup_singleton.
  - unfold ids_below_seq. simpl. repeat constructor.
Defined.

Lemma step_keeps_rolls ev w r :
  r ∈ rolls w -> exists r', r' ∈ rolls (step w ev) /\ same_roll r r'.
Proof.
  intros Hr.
  destruct ev as [req|now|fs]; simpl; [|by exists r ..].
  rewrite serve_rolls.
  destruct req as [roll|roll_id|q|s e]; [| |by exists r ..].
  - destruct (create_roll_table roll (set_session [] w) eq_refl) as [->|[_ ->]];
      simpl; exists r; [done|]. split; [|done]. apply elem_of_app. by left.
  - destruct (delete_roll_table roll_id (set_session [] w) eq_refl)
      as [->|(r0 & _ & _ & ->)]; simpl; [by exists r|].
    destruct (decide (id r = roll_id)) as [Hid|Hid].
    + exists (stamped (replace_microsecond_0 (clock w)) r). split; [|done].
      unfold update_removed. rewrite list_elem_of_In, in_map_iff.
      exists r. split; [|by apply list_elem_of_In].
      by replace (id r =? roll_id) with true by lia.
    + exists r. split; [|done]. by apply update_removed_other.
Qed.

(** X8: no operation ever drops a roll or touches its id, length, weight
    or [added_date]: along any life of the service every roll of the table
    is still there with these four fields as they were. *)
Theorem rolls_are_kept (events : list Event) (w : World) (r : Roll) :
  r ∈ rolls w ->
  exists r', r' ∈ rolls (run events w) /\ same_roll r r'.
Proof.
  unfold run. revert w r.
  induction events as [|ev events IH]; intros w r Hr; simpl.
  - by exists r.
  - destruct (step_keeps_rolls ev w r Hr) as (r1 & Hr1 & H1).
    destruct (IH (step w ev) r1 Hr1) as (r2 & Hr2 & H2).
    exists r2. split; [done|].
    destruct H1 as (? & ? & ? & ?), H2 as (? & ? & ? & ?).
    repeat split; congruence.
Qed.

Lemma rolls_are_kept_witness :
  exists r', r' ∈ rolls (run sample_events sample_world) /\
    same_roll (mkRoll 2 20 15
                 (utc_midnight sample_day + 3600 * MICROSECOND_PER_SECOND) None) r'.
Proof.
  apply (rolls_are_kept sample_events sample_world).
  right. by left.
Defined.

Lemma step_read_keeps_rolls ev w :
  is_read ev = true -> rolls (step w ev) = rolls w.
Proof.
  destruct ev as [req|now|fs]; simpl; try done.
  rewrite serve_rolls. by destruct req.
Qed.

Lemma get_rolls_on_table q w :
  hd false (faults w) = false ->
  (get_rolls q w).1 = Ok (sql_where (get_rolls_filters q) (rolls w)).
Proof.
  intros Hf. unfold get_rolls, try_except, db_query_all, bind.
  by rewrite (roundtrip_no_fault _ _ Hf).
Qed.

(** X9: list and statistics requests can be repeated: after any number of
    list and statistics requests, served or failed, with time passing and
    outages in between, the table is what it was, and a list request that
    the database answers gets the answer it got before. *)
Theorem reads_are_repeatable (events : list Event) (q : RollsQuery) (w : World) :
  Forall (fun ev => is_read ev = true) events ->
  hd false (faults w) = false ->
  hd false (faults (run events w)) = false ->
  rolls (run events w) = rolls w /\
  (get_rolls q (run events w)).1 = (get_rolls q w).1.
Proof.
  intros Hreads Hf Hf'.
  assert (rolls (run events w) = rolls w) as Hrolls.
  { clear Hf Hf'. unfold run. revert w.
    induction Hreads as [|ev events Hev _ IH]; intros w; simpl; [done|].
    by rewrite IH, step_read_keeps_rolls. }
  split; [done|].
  by rewrite !get_rolls_on_table, Hrolls.
Qed.

Lemma reads_are_repeatable_witness :
  rolls (run [Serve (GetStatistics 0 1); Tick 5; Serve (GetRolls (by_id 1))]
             sample_world) = rolls sample_world /\
  (get_rolls (by_id 2)
     (run [Serve (GetStatistics 0 1); Tick 5; Serve (GetRolls (by_id 1))]
          sample_world)).1 =
  (get_rolls (by_id 2) sample_world).1.
Proof.
  apply (reads_are_repeatable
           [Serve (GetStatistics 0 1); Tick 5; Serve (GetRolls (by_id 1))]
           (by_id 2) sample_world).
  - repeat constructor.
  - reflexivity.
  - reflexivity.
Defined.

(** ** Listing: particular requests *)

Lemma get_rolls_Ok q w rs :
  (get_rolls q w).1 = Ok rs -> rs = sql_where (get_rolls_filters q) (rolls w).
Proof.
  unfold get_rolls, try_except, db_query_all, bind, roundtrip.
  destruct w as [rs0 sq se cl ds fs tr]; simpl.
  destruct fs as [|[] fs]; simpl; intros [= <-]; done.
Qed.

Lemma filter_id_NoDup (x : Z) (rs : list Roll) :
  NoDup (map id rs) ->
  List.filter (fun r => id r =? x) rs =
  match find_roll x rs with Some r => [r] | None => [] end.
Proof.
  unfold find_roll. induction rs as [|r rs IH]; simpl; intros Hnd; [done|].
  apply NoDup_cons in Hnd as [Hr Hnd].
  destruct (id r =? x) eqn:E; [|by apply IH].
  f_equal. apply Z.eqb_eq in E. subst x.
  clear IH Hnd. induction rs as [|r' rs IH]; simpl; [done|].
  destruct (id r' =? id r) eqn:E'.
  - exfalso. apply Hr. apply Z.eqb_eq in E'. rewrite <- E'. simpl. by left.
  - apply IH. intros H. apply Hr. simpl. by right.
Qed.

(** X10: a list request with [id_start = id_end = x], answered by the
    database, returns the roll of id [x] alone when the table has it and
    the empty list when it has not. *)
Theorem get_rolls_by_id (x : Z) (w : World) :
  primary_key w -> hd false (faults w) = false ->
  (get_rolls (by_id x) w).1 =
  Ok match find_roll x (rolls w) with Some r => [r] | None => [] end.
Proof.
  intros Hpk Hf. rewrite get_rolls_on_table by done. f_equal.
  rewrite <- (filter_id_NoDup x (rolls w) Hpk).
  unfold sql_where. apply List.filter_ext. intros r.
  unfold by_id, get_rolls_filters, col_ge, col_le, Roll_id. simpl.
  destruct (x <=? id r) eqn:E1, (id r <=? x) eqn:E2, (id r =? x) eqn:E3;
    simpl; try done; lia.
Qed.

Lemma get_rolls_by_id_witness :
  (get_rolls (by_id 2) sample_world).1 =
    Ok match find_roll 2 (rolls sample_world) with Some r => [r] | None => [] end /\
  (get_rolls (by_id 7) sample_world).1 =
    Ok match find_roll 7 (rolls sample_world) with Some r => [r] | None => [] end.
Proof.
  assert (primary_key sample_world) as Hpk.
  { unfold primary_key. simpl. apply NoDup_cons. split.
    - intros H%list_elem_of_singleton. discriminate H.
    - apply NoDup_singleton. }
  split.
  - apply (get_rolls_by_id 2 sample_world Hpk). reflexivity.
  - apply (get_rolls_by_id 7 sample_world Hpk). reflexivity.
Defined.

Lemma crossed_Z lo hi v : crossed Z.lt lo hi -> ~ in_range Z.le lo hi v.
Proof.
  intros (a & b & -> & -> & Hlt) [(y & Hy & Hle) (y' & Hy' & Hle')]. simpl in *.
  assert (y = y') by congruence. lia.
Qed.

Lemma crossed_Q lo hi v : crossed Qlt lo hi -> ~ in_range Qle lo hi v.
Proof.
  intros (a & b & -> & -> & Hlt) [(y & Hy & Hle) (y' & Hy' & Hle')]. simpl in *.
  assert (y = y') by congruence. subst y'.
  apply (Qlt_not_le _ _ Hlt). by apply Qle_trans with y.
Qed.

(** X11: the bounds of a list request are not checked against each other:
    a request whose lower bound on some field is above its upper bound is
    answered, and the answer is the empty list. *)
Theorem get_rolls_crossed_bounds (q : RollsQuery) (w : World) :
  crossed_bounds q -> hd false (faults w) = false ->
  (get_rolls q w).1 = Ok [].
Proof.
  intros Hc Hf. rewrite get_rolls_on_table by done. f_equal.
  apply elem_of_nil_inv. intros r.
  rewrite elem_of_sql_where, get_rolls_filters_true.
  intros [_ (H1 & H2 & H3 & H4 & H5)].
  destruct Hc as [Hc|[Hc|[Hc|[Hc|Hc]]]].
  - by apply (crossed_Z _ _ _ Hc) in H1.
  - by apply (crossed_Q _ _ _ Hc) in H2.
  - by apply (crossed_Q _ _ _ Hc) in H3.
  - by apply (crossed_Z _ _ _ Hc) in H4.
  - by apply (crossed_Z _ _ _ Hc) in H5.
Qed.

Lemma get_rolls_crossed_bounds_witness :
  (get_rolls (mkRollsQuery None None (Some 20%Q) (Some 10%Q)
                           None None None None None None) sample_world).1 = Ok [].
Proof.
  apply get_rolls_crossed_bounds; [|reflexivity].
  right. left. exists 20%Q, 10%Q. repeat split.
Defined.

(** X12: a list request that bounds [removed_date] on either side never
    returns a roll that is still in the warehouse. *)
Theorem get_rolls_removed_bound (q : RollsQuery) (w : World) (rs : list Roll) :
  removed_start q <> None \/ removed_end q <> None ->
  (get_rolls q w).1 = Ok rs ->
  Forall (fun r => is_Some (removed_date r)) rs.
Proof.
  intros Hb Hok. apply get_rolls_Ok in Hok. subst rs.
  apply Forall_forall. intros r Hr.
  apply elem_of_sql_where in Hr as [_ Hr].
  apply get_rolls_filters_true in Hr as (_ & _ & _ & _ & [Hlo Hhi]).
  destruct Hb as [Hb|Hb].
  - destruct (removed_start q) as [a|]; [|done].
    destruct Hlo as (y & -> & _). by exists y.
  - destruct (removed_end q) as [b|]; [|done].
    destruct Hhi as (y & -> & _). by exists y.
Qed.

Lemma get_rolls_removed_bound_witness :
  Forall (fun r => is_Some (removed_date r))
    [mkRoll 1 10 5 (utc_midnight sample_day + 3600 * MICROSECOND_PER_SECOND)
       (Some (utc_midnight (sample_day + 1) + 3600 * MICROSECOND_PER_SECOND))].
Proof.
  apply (get_rolls_removed_bound
           (mkRollsQuery None None None None None None None None (Some 0) None)
           sample_world).
  - left. discriminate.
  - reflexivity.
Defined.

(** ** Statistics: the reported days *)

Lemma fold_track_days {V} (beats same : V -> V -> bool) (val : DayRow -> V)
    (rows : list DayRow) (st : option V * list date) :
  (st.1 = None \/ st.2 <> []) ->
  let st' := fold_left (track_row beats same val) rows st in
  (st'.1 = None \/ st'.2 <> []) /\
  (rows <> [] -> st'.2 <> []) /\
  (forall d, d ∈ st'.2 -> d ∈ st.2 \/ d ∈ map day rows).
Proof.
  revert st. induction rows as [|row rows IH]; intros st Hst; simpl.
  - split; [done|]. split; [done|]. by left.
  - set (st1 := track_row beats same val st row).
    assert (st1.2 <> [] /\ forall d, d ∈ st1.2 -> d ∈ st.2 \/ d = day row)
      as [Hne Hsub].
    { unfold st1, track_row, track. destruct st as [[m|] days]; simpl in *.
      - destruct (beats (val row) m); simpl.
        + split; [done|]. intros d ->%list_elem_of_singleton. by right.
        + destruct (same (val row) m); simpl.
          * split; [by destruct days|].
            intros d [H| ->%list_elem_of_singleton]%elem_of_app; auto.
          * split; [by destruct Hst | auto].
      - split; [done|]. intros d ->%list_elem_of_singleton. by right. }
    destruct (IH st1 (or_intror Hne)) as (H1 & H2 & H3).
    split; [done|]. split.
    + intros _. destruct rows as [|row' rows']; [done|]. by apply H2.
    + intros d Hd. destruct (H3 d Hd) as [Hd1|Hd1].
      * destruct (Hsub d Hd1) as [?| ->]; [by left | right; by left].
      * right. by right.
Qed.

Lemma scan_days_in_rows (rows : list DayRow) :
  rows <> [] ->
  let st := scan rows in
  Forall (fun days => exists d, min_day days = Some d /\ d ∈ map day rows)
    [min_count_days st; max_count_days st; min_weight_days st; max_weight_days st].
Proof.
  intros Hne st.
  destruct (fold_scan_step_tracks rows scan_init) as (E1 & E2 & E3 & E4).
  fold (scan rows) in E1, E2, E3, E4. fold st in E1, E2, E3, E4. simpl in *.
  assert (forall V (beats same : V -> V -> bool) (val : DayRow -> V) cur days,
            (cur, days) = fold_left (track_row beats same val) rows (None, []) ->
            exists d, min_day days = Some d /\ d ∈ map day rows) as Hgen.
  { intros V beats same val cur days E.
    destruct (fold_track_days beats same val rows (None, []) (or_introl eq_refl))
      as (_ & H2 & H3).
    rewrite <- E in H2, H3. simpl in *.
    destruct (min_day_least days (H2 Hne)) as (d & Hd & Hin & _).
    exists d. split; [done|].
    destruct (H3 d Hin) as [H|H]; [by apply elem_of_nil in H | done]. }
  repeat constructor; eapply Hgen; eauto.
Qed.

(** X13: every statistics request that is answered reports four days,
    none of them null, and each is a calendar day of the requested range,
    from the UTC date of [start_date] to the UTC date of [end_date]. *)
Theorem statistics_days_in_range (s e : datetime) (w w' : World)
    (resp : StatisticsResponse.t) :
  get_statistics s e w = (Ok resp, w') ->
  Forall (fun day => exists d, day = Some d /\ utc_date s <= d <= utc_date e)
    [StatisticsResponse.day_min_count resp; StatisticsResponse.day_max_count resp;
     StatisticsResponse.day_min_weight resp; StatisticsResponse.day_max_weight resp].
Proof.
  intros Hok. apply get_statistics_returns in Hok as [Hse ->].
  unfold statistics_on. simpl.
  set (rows := daily_series_sql (day_start w) (utc_date s) (utc_date e) (rolls w)).
  assert (utc_date s <= utc_date e) as Hd.
  { unfold utc_date. by apply Z.div_le_mono. }
  assert (map day rows = seqZ (utc_date s) (utc_date e - utc_date s + 1)) as Hdays.
  { unfold rows. rewrite daily_series_rows, List.map_map. simpl.
    unfold generate_series. apply List.map_id. }
  assert (rows <> []) as Hne.
  { intros Hnil. rewrite Hnil in Hdays. simpl in Hdays.
    rewrite seqZ_cons in Hdays by lia. done. }
  pose proof (scan_days_in_rows rows Hne) as Hall. simpl in Hall.
  assert (forall days,
            (exists d, min_day days = Some d /\ d ∈ map day rows) ->
            exists d, min_day days = Some d /\ utc_date s <= d <= utc_date e)
    as Hconv.
  { intros days (d & Hmd & Hin). exists d. split; [done|].
    rewrite Hdays, elem_of_seqZ in Hin. lia. }
  rewrite !Forall_cons in Hall. destruct Hall as (H1 & H2 & H3 & H4 & _).
  repeat constructor; by apply Hconv.
Qed.

Lemma statistics_days_in_range_witness :
  Forall (fun day => exists d, day = Some d /\
                     utc_date (utc_midnight sample_day) <= d
                     <= utc_date (utc_midnight (sample_day + 2)))
    [Some 20002; Some 20000; Some 20002; Some 20000].
Proof.
  apply (statistics_days_in_range (utc_midnight sample_day)
           (utc_midnight (sample_day + 2)) sample_world
           (get_statistics (utc_midnight sample_day)
              (utc_midnight (sample_day + 2)) sample_world).2
           (statistics_on utc_midnight sample_rolls (utc_midnight sample_day)
              (utc_midnight (sample_day + 2)))).
  reflexivity.
Defined.

(** ** Statistics: the aggregates *)

Lemma removed_presence_nil s e rs :
  presence_set rs s e = [] ->
  sql_where [col_isnot_none Roll_removed_date; presence_condition s e] rs = [].
Proof.
  unfold presence_set. intros Hnil. apply elem_of_nil_inv. intros r.
  rewrite elem_of_sql_where, !Forall_cons. intros (Hr & _ & Hp & _).
  assert (r ∈ sql_where [presence_condition s e] rs) as Hin.
  { apply elem_of_sql_where. split; [done|]. by apply Forall_singleton. }
  rewrite Hnil in Hin. by apply elem_of_nil in Hin.
Qed.

(** X14: when no roll of the table overlaps the requested range, an
    answered statistics request reports null for the seven aggregates over
    the presence set and for both intervals. *)
Theorem statistics_of_no_roll (s e : datetime) (w w' : World)
    (resp : StatisticsResponse.t) :
  get_statistics s e w = (Ok resp, w') ->
  presence_set (rolls w) s e = [] ->
  Forall (fun x : option Q => x = None)
    [StatisticsResponse.avg_length resp; StatisticsResponse.avg_weight resp;
     StatisticsResponse.min_length resp; StatisticsResponse.max_length resp;
     StatisticsResponse.min_weight resp; StatisticsResponse.max_weight resp;
     StatisticsResponse.total_weight resp;
     StatisticsResponse.max_interval resp; StatisticsResponse.min_interval resp].
Proof.
  intros Hok Hnil. apply get_statistics_returns in Hok as [Hse ->].
  pose proof (removed_presence_nil s e (rolls w) Hnil) as Hnil'.
  unfold presence_set in Hnil. unfold statistics_on. simpl.
  rewrite Hnil, Hnil'. simpl. repeat constructor.
Qed.

Lemma statistics_of_no_roll_witness :
  Forall (fun x : option Q => x = None)
    [None; None; None; None; None; None; None; None; None].
Proof.
  apply (statistics_of_no_roll 0 5 sample_world
           (get_statistics 0 5 sample_world).2
           (statistics_on utc_midnight sample_rolls 0 5)); reflexivity.
Defined.








(** ** Statistics: the days a roll counts on *)




(** ** Statistics: the two intervals *)

Lemma round_half_even_bounds (x : Q) :
  Qfloor x <= round_half_even x <= Qfloor x + 1.
Proof.
  unfold round_half_even.
  destruct (x - inject_Z (Qfloor x) ?= 1 # 2)%Q; [destruct (Z.even _)|..]; lia.
Qed.

Lemma round_half_even_mono (x y : Q) :
  (x <= y)%Q -> round_half_even x <= round_half_even y.
Proof.
  intros Hxy. pose proof (Qfloor_resp_le x y Hxy) as Hf.
  destruct (Z.eq_dec (Qfloor x) (Qfloor y)) as [Heq|Hne].
  - unfold round_half_even. rewrite Heq.
    destruct (x - inject_Z (Qfloor y) ?= 1 # 2)%Q eqn:Ex,
             (y - inject_Z (Qfloor y) ?= 1 # 2)%Q eqn:Ey;
      try (destruct (Z.even (Qfloor y)); lia); try lia; exfalso;
      repeat match goal with
      | H : (_ ?= _)%Q = Eq |- _ => apply Qeq_alt in H
      | H : (_ ?= _)%Q = Lt |- _ => apply Qlt_alt in H
      | H : (_ ?= _)%Q = Gt |- _ => apply Qgt_alt in H
      end; lra.
  - pose proof (round_half_even_bounds x). pose proof (round_half_even_bounds y).
    lia.
Qed.

Lemma round2_mono (x y : Q) : (x <= y)%Q -> (round2 x <= round2 y)%Q.
Proof.
  intros Hxy. unfold round2. rewrite !Qred_correct.
  assert (round_half_even (x * 100) <= round_half_even (y * 100)) as H.
  { apply round_half_even_mono. lra. }
  rewrite Zle_Qle in H. unfold Qdiv.
  apply Qmult_le_compat_r; [done|]. apply Qinv_le_0_compat. lra.
Qed.

Lemma epoch_days_mono (i j : Z) : i <= j -> (epoch_days i <= epoch_days j)%Q.
Proof.
  intros H. unfold epoch_days, Qle, Qdiv, Qmult, Qinv. simpl. lia.
Qed.

(** X17: when an answered statistics request reports both intervals, the
    least is not above the greatest. *)
Theorem statistics_intervals_ordered (s e : datetime) (w w' : World)
    (resp : StatisticsResponse.t) (lo hi : Q) :
  get_statistics s e w = (Ok resp, w') ->
  StatisticsResponse.min_interval resp = Some lo ->
  StatisticsResponse.max_interval resp = Some hi ->
  (lo <= hi)%Q.
Proof.
  intros Hok Hlo Hhi. apply get_statistics_returns in Hok as [Hse ->].
  destruct (intervals_reported (day_start w) (rolls w) s e) as [Hmax Hmin].
  destruct (sql_extremum Z.max _) as [M|]; [|destruct Hmax; congruence].
  destruct (sql_extremum Z.min _) as [m|]; [|destruct Hmin; congruence].
  destruct Hmax as (_ & Hall & HM), Hmin as ((r & Hr & Hm) & _ & Hmm).
  rewrite Hhi in HM. rewrite Hlo in Hmm.
  destruct (M =? 0); [done|]. destruct (m =? 0); [done|].
  injection HM as ->. injection Hmm as ->.
  apply round2_mono, epoch_days_mono. by apply (Hall r).
Qed.

Lemma statistics_intervals_ordered_witness : (1 <= 1)%Q.
Proof.
  apply (statistics_intervals_ordered (utc_midnight sample_day)
           (utc_midnight (sample_day + 2)) sample_world
           (get_statistics (utc_midnight sample_day)
              (utc_midnight (sample_day + 2)) sample_world).2
           (statistics_on utc_midnight sample_rolls (utc_midnight sample_day)
              (utc_midnight (sample_day + 2)))); reflexivity.
Defined.

(** ** Statistics: database faults *)



(** ** The configuration loader and the connection string *)



Lemma append_assoc_stdpp (a b c : string) : (a +:+ b) +:+ c = a +:+ b +:+ c.
Proof.
  induction a as [|x a IH]; [done|].
  change (String x ((a +:+ b) +:+ c) = String x (a +:+ b +:+ c)). by rewrite IH.
Qed.

(** X20: the connection string is put together without quoting: a
    password that holds an ["@"] gives the very string that the shorter
    password gives with a longer host, so what follows the ["@"] in the
    password is read as the beginning of the host. *)
Theorem database_url_is_not_quoted (u p x h d : string) :
  SQLALCHEMY_DATABASE_URL (Config.mkDbConfig h d u (p +:+ "@" +:+ x)) =
  SQLALCHEMY_DATABASE_URL (Config.mkDbConfig (x +:+ "@" +:+ h) d u p).
Proof.
  unfold SQLALCHEMY_DATABASE_URL. simpl.
  by rewrite !append_assoc_stdpp.
Qed.
